(** * The dialogue core of the voice-first Telugu assistant (src/agent.py)

    A shallow embedding of [parse_confirmation], [Planner.plan],
    [Executor.execute], [Executor._parse_and_set_field],
    [Evaluator.evaluate] and [Agent.process_input], and the properties of
    the planner / executor / session-state loop.

    Conventions of the embedding:
    - a Python [str] is the list of its Unicode code points;
    - a Python [float] is a binary64 primitive float;
    - a [dict] that is used as a map (the profile, the session store) is a
      [gmap]; a [dict] with a fixed set of keys (a session, an offer, an
      executor outcome, a response) is a record whose optional keys are
      [option]s;
    - the session store is shared mutable state, and the collaborators
      (eligibility, retrieval, submission) have state of their own: the
      executor and the loop are written in a state-and-exception monad
      over both, which also records the calls made to the collaborators. *)

From Stdlib Require Import Floats ZArith NArith String Ascii.
From stdpp Require Import gmap list option.

Local Open Scope N_scope.

(** ** Text *)

(** A code point, and a string as Python sees it: a sequence of code points. *)
Abbreviation char := N (only parsing).
Abbreviation str := (list N) (only parsing).

Module Utf8.
(** The source file is UTF-8: a literal of the source is read here as its
    bytes and decoded to the code points Python holds. [need] counts the
    continuation bytes still expected, [acc] holds the bits read so far. *)
Fixpoint decode (bs : list N) (need : nat) (acc : N) : str :=
  match bs with
  | [] => []
  | b :: bs' =>
      if b <? 0x80 then b :: decode bs' 0 0
      else if b <? 0xC0 then
        let acc' := acc * 64 + (b - 0x80) in
        match need with
        | 1%nat => acc' :: decode bs' 0 0
        | S n => decode bs' n acc'
        | O => decode bs' 0 0
        end
      else if b <? 0xE0 then decode bs' 1 (b - 0xC0)
      else if b <? 0xF0 then decode bs' 2 (b - 0xE0)
      else decode bs' 3 (b - 0xF0)
  end.

Definition of_literal (s : string) : str :=
  decode (map N_of_ascii (list_ascii_of_string s)) 0 0.
End Utf8.

(** A literal of the source, decoded once and for all. *)
Notation "« s »" :=
  (ltac:(let v := eval vm_compute in (Utf8.of_literal s%string) in exact v))
  (only parsing).

(** What the Python runtime knows about characters. [\d] in a [str] pattern
    matches the decimal characters of every script (Telugu ౦..౯ included),
    [int] reads them by their decimal value, [str.strip] removes white space
    and [str.lower] is the full Unicode lower-casing: all four come from the
    interpreter's character database, so the model takes them as an
    interface. [AsciiOnly.unicode] below is the instance that knows ASCII
    only. *)
Class Unicode := {
  isdecimal : char → bool;
  todecimal : char → Z;
  isspace : char → bool;
  lower : str → str;
  lower_nil : lower [] = []
}.

(** The character database restricted to ASCII: exact on texts whose
    decimal characters, white space and cased letters are ASCII (Telugu
    letters have no case). *)
Module AsciiOnly.
Definition is_decimal (c : char) : bool := (48 <=? c) && (c <=? 57).
Definition to_decimal (c : char) : Z := Z.of_N (c - 48).
Definition is_space (c : char) : bool :=
  (c =? 32) || ((9 <=? c) && (c <=? 13)) || ((28 <=? c) && (c <=? 31)).
Definition lower_char (c : char) : char :=
  if (65 <=? c) && (c <=? 90) then c + 32 else c.
Definition to_lower (s : str) : str := map lower_char s.

#[export] Instance unicode : Unicode :=
  {| isdecimal := is_decimal; todecimal := to_decimal;
     isspace := is_space; lower := to_lower; lower_nil := eq_refl |}.
End AsciiOnly.

Section text.
Context `{Unicode}.

(** [bool(s)] for a string: the empty string is falsy. *)
Definition nonempty (s : str) : bool :=
  match s with [] => false | _ => true end.

(** [bool(v)] for a value that is a string or [None]. *)
Definition truthy (v : option str) : bool :=
  match v with Some s => nonempty s | None => false end.

Fixpoint startswith (prefix s : str) : bool :=
  match prefix, s with
  | [], _ => true
  | _ :: _, [] => false
  | a :: prefix', b :: s' => (a =? b) && startswith prefix' s'
  end.

(** [needle in hay] *)
Fixpoint contains (needle hay : str) : bool :=
  startswith needle hay ||
  match hay with
  | [] => false
  | _ :: hay' => contains needle hay'
  end.

(** [any(tok in t for tok in tokens)] *)
Definition any_in (tokens : list str) (t : str) : bool :=
  existsb (λ tok, contains tok t) tokens.

Fixpoint lstrip (s : str) : str :=
  match s with
  | c :: s' => if isspace c then lstrip s' else s
  | [] => []
  end.

(** [s.strip()] *)
Definition strip (s : str) : str := rev (lstrip (rev (lstrip s))).

(** [s.replace(old, new)] for a one-character [old]. *)
Definition replace (old : char) (new : str) (s : str) : str :=
  flat_map (λ c, if c =? old then new else [c]) s.

(** [sep.join(parts)] *)
Fixpoint join (sep : str) (parts : list str) : str :=
  match parts with
  | [] => []
  | [p] => p
  | p :: parts' => p ++ sep ++ join sep parts'
  end.

(** The longest run of decimal characters at the head of [s], cut at [cap]
    characters when there is a cap: what a greedy [\d{_,cap}] consumes. *)
Fixpoint take_digits (cap : option nat) (s : str) : str :=
  match s with
  | [] => []
  | c :: s' =>
      match cap with
      | Some O => []
      | Some (S n) =>
          if isdecimal c then c :: take_digits (Some n) s' else []
      | None => if isdecimal c then c :: take_digits None s' else []
      end
  end.

(** [re.match(r"(\d{lo,hi})", s)]: the group, when the pattern matches at
    the head of [s]. Nothing follows the quantifier, so the greedy attempt
    is the match. *)
Definition match_digits (lo : nat) (hi : option nat) (s : str) : option str :=
  let m := take_digits hi s in
  if (lo <=? length m)%nat then Some m else None.

(** [re.search(r"(\d{lo,hi})", s)]: the match at the leftmost position
    that has one. *)
Fixpoint search_digits (lo : nat) (hi : option nat) (s : str) : option str :=
  match match_digits lo hi s with
  | Some m => Some m
  | None =>
      match s with
      | [] => None
      | _ :: s' => search_digits lo hi s'
      end
  end.

(** [int(ds)] on a run of decimal characters. Python integers are
    unbounded; the guard that recent CPython versions put on the length of
    the text ([sys.set_int_max_str_digits]) is a setting of the interpreter
    and is left out. *)
Definition int (ds : str) : Z :=
  fold_left (λ acc c, 10 * acc + todecimal c)%Z ds 0%Z.
End text.

(** String constants of the source. *)
Definition AGE : str := «"age"».
Definition INCOME : str := «"income"».
Definition CONFIRMATION : str := «"confirmation"».
Definition COMMA : char := 44.
Definition FILLED : str := «"filled"».
Definition NO_ACTION : str := «"no_action"».
Definition USER : str := «"user"».
Definition ASSISTANT : str := «"assistant"».

(** ** ASR confidence *)

(** The literal [0.6] of the source: the binary64 value nearest to 6/10. *)
Definition THRESHOLD : float := 0x1.3333333333333p-1%float.

(** ** Steps, sessions *)

(** A step of a plan: the dict [{"step": name, ...}] with the keys the
    executor reads for that name. [UnknownStep] stands for every other
    name. *)
Inductive step :=
  | ClarifyAsr
  | AskField (field : str)
  | FillField (field : str)
  | CheckEligibility
  | DescribeScheme (query : str)
  | Confirm
  | SubmitApplication
  | UnknownStep (name : str).

(** An offer (a "scheme"): identifier, name, short description. *)
Record Scheme := {
  scheme_id : str;
  scheme_name : str;
  scheme_description : str
}.

(** A session: the profile collected so far (absent keys are not yet
    collected), what the session waits for, the offers of the last
    eligibility check (the key is absent until the first check) and the
    turns so far, as (role, text). *)
Record Session := {
  profile : gmap str Z;
  waiting_for : option str;
  last_eligibility : option (list Scheme);
  history : list (str * str)
}.

(** ** Planner *)

Section planner.
Context `{Unicode}.

Definition detail_keywords : list str :=
  [«"వివర"»; «"వివరాలు"»; «"details"»; «"more"»; «"about"»].

Definition plan (session : Session) (transcript : str) (confidence : float)
  : list step :=
  if (confidence <? THRESHOLD)%float then [ClarifyAsr]
  else
    let waiting := waiting_for session in
    if truthy waiting then
      if bool_decide (waiting = Some CONFIRMATION) then
        if any_in detail_keywords (lower transcript)
        then [DescribeScheme transcript]
        else [Confirm]
      else [FillField (default [] waiting)]
    else
      let missing :=
        filter (λ f, profile session !! f = None) [AGE; INCOME] in
      match missing with
      | f :: _ => [AskField f]
      | [] => [CheckEligibility]
      end.
End planner.

(** ** Confirmation parser *)

Section confirmation.
Context `{Unicode}.

Definition yes_tokens : list str := [«"అవును"»; «"అవు"»; «"సరే"»; «"yes"»].
Definition no_tokens : list str := [«"లేదు"»; «"కాదు"»; «"no"»].

(** [True], [False] and [None] of the source are [Some true], [Some false]
    and [None]. *)
Definition parse_confirmation (transcript : str) : option bool :=
  if negb (nonempty transcript) then None
  else
    let t := lower (strip transcript) in
    let found_yes := any_in yes_tokens t in
    let found_no := any_in no_tokens t in
    if found_yes && negb found_no then Some true
    else if found_no && negb found_yes then Some false
    else None.
End confirmation.

(** ** The world the executor acts on *)

(** The collaborators are other modules of the repository, reached through
    narrow interfaces: the eligibility evaluator (profile to offers), the
    submission service (called with [{"profile": profile}], read for its
    ["application_id"]), the search of the offers and the lookup of an
    offer by its identifier, which may find none. They may keep state of
    their own and answer differently from one call to the next (a fresh
    application identifier per submission), so each takes and returns the
    state [world] of the collaborators. *)
Class Collaborators (world : Type) := {
  check_eligibility : gmap str Z → world → list Scheme * world;
  submit_application : gmap str Z → world → str * world;
  search_schemes : str → world → list Scheme * world;
  get_scheme_by_id : str → world → option Scheme * world
}.

(** The calls made to the collaborators, in order, with their arguments. *)
Inductive call :=
  | CallCheckEligibility (profile : gmap str Z)
  | CallSubmitApplication (profile : gmap str Z)
  | CallSearchSchemes (query : str)
  | CallGetSchemeById (id : str).

Record state (world : Type) := State {
  sessions : gmap str Session;
  env : world;
  calls : list call
}.
Arguments State {world}.
Arguments sessions {world}.
Arguments env {world}.
Arguments calls {world}.

Inductive exn :=
  | AttributeError
  | TypeError.

Inductive result (S A : Type) :=
  | Ok (a : A) (s : S)
  | Raise (e : exn) (s : S).
Arguments Ok {S A}.
Arguments Raise {S A}.

(** Computations that read and write the state and may raise. *)
Definition M (S A : Type) : Type := S → result S A.

#[export] Instance M_ret {S} : MRet (M S) := λ A a s, Ok a s.
#[export] Instance M_bind {S} : MBind (M S) := λ A B f m s,
  match m s with
  | Ok a s' => f a s'
  | Raise e s' => Raise e s'
  end.

Definition raise {S A} (e : exn) : M S A := λ s, Raise e s.

Section store.
Context {world : Type}.

(** Modelled from the spec: [get_session] of src/memory/store.py, which is
    not among the sources: [get(id) → session | absent]. The session it
    returns is the dict the store holds, not a copy. *)
Definition get_session (session_id : str) : M (state world) (option Session) :=
  λ st, Ok (sessions st !! session_id) st.

(** A write through a reference to the session [session_id]: the store's
    entry changes, for every holder of the reference. *)
Definition update_session (session_id : str) (f : Session → Session)
  : M (state world) () :=
  λ st, Ok () (State (alter f session_id (sessions st)) (env st) (calls st)).

(** Modelled from the spec: [set_waiting] of src/memory/store.py:
    [setWaiting(id, fieldOrMode|absent)]. *)
Definition set_waiting (session_id : str) (field : option str)
  : M (state world) () :=
  update_session session_id (λ s,
    {| profile := profile s; waiting_for := field;
       last_eligibility := last_eligibility s; history := history s |}).

(** Modelled from the spec: [add_history] of src/memory/store.py:
    [appendHistory(id, role, text)], appending to the ordered history. *)
Definition add_history (session_id : str) (role text : str)
  : M (state world) () :=
  update_session session_id (λ s,
    {| profile := profile s; waiting_for := waiting_for s;
       last_eligibility := last_eligibility s;
       history := history s ++ [(role, text)] |}).

(** [session["last_eligibility"] = eligible] *)
Definition set_last_eligibility (session_id : str) (eligible : list Scheme)
  : M (state world) () :=
  update_session session_id (λ s,
    {| profile := profile s; waiting_for := waiting_for s;
       last_eligibility := Some eligible; history := history s |}).

(** [session["profile"][key] = value], where [session] is what
    [get_session] returned: subscripting [None] raises. *)
Definition set_profile (session : option Session) (session_id key : str)
    (value : Z) : M (state world) () :=
  match session with
  | None => raise TypeError
  | Some _ =>
      update_session session_id (λ s,
        {| profile := <[key := value]> (profile s);
           waiting_for := waiting_for s;
           last_eligibility := last_eligibility s; history := history s |})
  end.

(** A call to a collaborator: it runs on the collaborators' state and is
    recorded. *)
Definition invoke {A} (c : call) (f : world → A * world) : M (state world) A :=
  λ st, let '(a, w) := f (env st) in Ok a (State (sessions st) w (calls st ++ [c])).
End store.

(** ** Executor *)

(** The outcome of a step, and the response of a call: a dict read with
    [.get], so every key is optional. *)
Record outcome := Outcome {
  status : option str;
  reply : option str;
  eligible : option (list Scheme);
  application_id : option str;
  field : option str;
  error : option str
}.

Section executor.
Context `{Unicode} {world : Type} `{Collaborators world}.

Definition _parse_and_set_field (session_id field transcript : str)
  : M (state world) bool :=
  session ← get_session session_id;
  if bool_decide (field = AGE) then
    match search_digits 1 (Some 3%nat) transcript with
    | Some m => set_profile session session_id AGE (int m);; mret true
    | None => mret false
    end
  else if bool_decide (field = INCOME) then
    match search_digits 3 None (replace COMMA [] transcript) with
    | Some m => set_profile session session_id INCOME (int m);; mret true
    | None => mret false
    end
  else mret false.

Definition execute (step : step) (session_id transcript : str)
  : M (state world) outcome :=
  session ← get_session session_id;
  match session with
  | None =>
      mret {| status := Some «"error"»; reply := None; eligible := None;
              application_id := None; field := None;
              error := Some «"no_session"» |}
  | Some session =>
      match step with
      | ClarifyAsr =>
          set_waiting session_id None;;
          let reply :=
            «"క్షమించండి, నేను స్పష్టంగా వినలేకపోయాను. దయచేసి మళ్లీ రికార్డ్ చేయండి."» in
          add_history session_id ASSISTANT reply;;
          mret {| status := Some «"clarify"»; reply := Some reply;
                  eligible := None; application_id := None; field := None;
                  error := None |}
      | AskField field =>
          reply ←
            (if bool_decide (field = AGE) then
               set_waiting session_id (Some AGE);;
               mret «"దయచేసి మీ వయస్సును చెప్పండి."»
             else if bool_decide (field = INCOME) then
               set_waiting session_id (Some INCOME);;
               mret «"దయచేసి మీ వార్షిక ఆదాయాన్ని (ఒక సంఖ్యలో) చెప్పండి."»
             else mret «"సమాధానం తెలియదు."»);
          add_history session_id ASSISTANT reply;;
          mret {| status := Some «"ask"»; reply := Some reply;
                  eligible := None; application_id := None; field := None;
                  error := None |}
      | FillField field =>
          filled ← _parse_and_set_field session_id field transcript;
          if negb filled then
            let reply :=
              «"క్షమించండి, మీ "» ++ field ++ «" గురించి స్పష్టంగా చెప్పగలరా?"» in
            set_waiting session_id (Some field);;
            add_history session_id ASSISTANT reply;;
            mret {| status := Some «"ask"»; reply := Some reply;
                    eligible := None; application_id := None; field := None;
                    error := None |}
          else
            set_waiting session_id None;;
            mret {| status := Some FILLED; reply := None; eligible := None;
                    application_id := None; field := Some field;
                    error := None |}
      | CheckEligibility =>
          let profile := profile session in
          eligible ← invoke (CallCheckEligibility profile)
                            (check_eligibility profile);
          set_last_eligibility session_id eligible;;
          reply ←
            (if bool_decide (eligible ≠ []) then
               let names := join «", "» (scheme_name <$> eligible) in
               let reply :=
                 «"మీకు ఈ పథకాలకు అర్హత ఉంది: "» ++ names ++
                 «". మీరు దరఖాస్తు చేయాలనుకుంటున్నారా? (అవును/లేదు)"» in
               set_waiting session_id (Some CONFIRMATION);;
               mret reply
             else
               let reply :=
                 «"క్షమించండి, ప్రస్తుత సమాచారం ప్రకారం మీకు తెలియజేసేందుకు అనుకూలమైన పథకం కనిపించలేదు."» in
               set_waiting session_id None;;
               mret reply);
          add_history session_id ASSISTANT reply;;
          mret {| status := Some «"eligible_check"»; reply := Some reply;
                  eligible := Some eligible; application_id := None;
                  field := None; error := None |}
      | DescribeScheme query =>
          let query := if nonempty query then query else transcript in
          session ← get_session session_id;
          match session with
          | None => raise AttributeError
          | Some session =>
              let last := default [] (last_eligibility session) in
              let hits :=
                filter (λ s,
                  contains (lower (scheme_name s)) (lower query)
                  || contains (lower (scheme_id s)) (lower query)) last in
              hits ←
                (if bool_decide (hits = []) then
                   invoke (CallSearchSchemes query) (search_schemes query)
                 else mret hits);
              match hits with
              | [] =>
                  let reply :=
                    «"క్షమించండి, ఆ పథకం గురించి వివరాలు నాకు లభించలేదు. మీరు మరొకటి అడగాలనుకుంటున్నారా?"» in
                  set_waiting session_id (Some CONFIRMATION);;
                  add_history session_id ASSISTANT reply;;
                  mret {| status := Some «"no_details"»; reply := Some reply;
                          eligible := None; application_id := None;
                          field := None; error := None |}
              | first :: _ =>
                  doc ← invoke (CallGetSchemeById (scheme_id first))
                               (get_scheme_by_id (scheme_id first));
                  match doc with
                  | None => raise AttributeError
                  | Some doc =>
                      let reply :=
                        scheme_name doc ++ «": "» ++ scheme_description doc in
                      set_waiting session_id (Some CONFIRMATION);;
                      add_history session_id ASSISTANT reply;;
                      mret {| status := Some «"describe"»;
                              reply := Some reply; eligible := None;
                              application_id := None; field := None;
                              error := None |}
                  end
              end
          end
      | Confirm =>
          match parse_confirmation transcript with
          | Some true =>
              let profile := profile session in
              app_id ← invoke (CallSubmitApplication profile)
                              (submit_application profile);
              let reply :=
                «"మీ దరఖాస్తు విజయవంతంగా సమర్పించబడింది. దరఖాస్తు ID: "» ++ app_id in
              add_history session_id ASSISTANT reply;;
              set_waiting session_id None;;
              mret {| status := Some «"submitted"»; reply := Some reply;
                      eligible := None; application_id := Some app_id;
                      field := None; error := None |}
          | Some false =>
              let reply :=
                «"సరే, నేను దరఖాస్తును నిలిపివెతున్నాను. మరింత సహాయం కావాలనుకుంటే చెప్పండి."» in
              add_history session_id ASSISTANT reply;;
              set_waiting session_id None;;
              mret {| status := Some «"declined"»; reply := Some reply;
                      eligible := None; application_id := None;
                      field := None; error := None |}
          | None =>
              let reply := «"దయచేసి అవును లేదా కాదు అని చెప్పగలరా? (అవును/లేదు)"» in
              set_waiting session_id (Some CONFIRMATION);;
              add_history session_id ASSISTANT reply;;
              mret {| status := Some «"confirm_ask"»; reply := Some reply;
                      eligible := None; application_id := None;
                      field := None; error := None |}
          end
      | SubmitApplication =>
          let profile := profile session in
          app_id ← invoke (CallSubmitApplication profile)
                          (submit_application profile);
          let reply := «"Your application has been submitted. ID: "» ++ app_id in
          add_history session_id ASSISTANT reply;;
          set_waiting session_id None;;
          mret {| status := Some «"submitted"»; reply := Some reply;
                  eligible := None; application_id := None; field := None;
                  error := None |}
      | UnknownStep _ =>
          mret {| status := Some «"unknown_step"»; reply := None;
                  eligible := None; application_id := None; field := None;
                  error := None |}
      end
  end.
End executor.

(** ** Evaluator *)

Definition evaluate (exec_out : outcome) : outcome := exec_out.

(** ** Orchestration loop *)

(** The agent holds its planner, executor and evaluator as attributes; the
    loop calls whatever they are. *)
Record Agent (world : Type) := {
  planner : Session → str → float → list step;
  executor : step → str → str → M (state world) outcome;
  evaluator : outcome → outcome
}.
Arguments planner {world}.
Arguments executor {world}.
Arguments evaluator {world}.

(** [bool(d)] for a dict: the empty dict is falsy. *)
Definition nonempty_dict (d : outcome) : bool :=
  bool_decide (is_Some (status d)) || bool_decide (is_Some (reply d))
  || bool_decide (is_Some (eligible d))
  || bool_decide (is_Some (application_id d))
  || bool_decide (is_Some (field d)) || bool_decide (is_Some (error d)).

(** The response of the early return: status, reply and eligible of the
    evaluated outcome, and the application identifier when the executor's
    outcome has one. *)
Definition reply_response (eval_out exec_out : outcome) : outcome :=
  {| status := status eval_out; reply := reply eval_out;
     eligible := eligible eval_out;
     application_id :=
       if truthy (application_id exec_out) then application_id exec_out
       else None;
     field := None; error := None |}.

(** The fallback return after the loop. *)
Definition fallback_response (response : option outcome) : outcome :=
  match response with
  | Some response =>
      if nonempty_dict response then
        {| status := status response; reply := reply response;
           eligible := eligible response;
           application_id :=
             if truthy (application_id response) then application_id response
             else None;
           field := None; error := None |}
      else
        {| status := Some NO_ACTION; reply := Some []; eligible := None;
           application_id := None; field := None; error := None |}
  | None =>
      {| status := Some NO_ACTION; reply := Some []; eligible := None;
         application_id := None; field := None; error := None |}
  end.

(** How the walk through one plan ends: by [return out], or by leaving the
    [for step in plan] loop with the local variables as they are then. *)
Inductive walk :=
  | Returned (out : outcome)
  | Walked (session : Session) (response : option outcome) (any_action : bool).

(** What a call did, for the record: its response, the number of rounds of
    [for _ in range(5)] it entered and the steps it executed with their
    outcomes. Only [response] is returned to the caller. *)
Record run := Run {
  response : outcome;
  iterations : nat;
  executed : list (step * outcome)
}.

Section agent.
Context {world : Type}.

(** The local variable [session] of [process_input] is a reference to the
    dict the store holds under [session_id]: what is read through it is the
    store's entry as it is at that moment. The accessors of the store neither
    remove nor replace an entry; should an executor of another kind drop it,
    the reference is modelled as still denoting the dict as last seen. *)
Definition deref (session_id : str) (session : Session)
  : M (state world) Session :=
  λ st, Ok (default session (sessions st !! session_id)) st.

Fixpoint run_plan (a : Agent world) (plan : list step)
    (session_id transcript : str) (session : Session)
    (response : option outcome) (any_action : bool)
    (log : list (step * outcome))
  : M (state world) (walk * list (step * outcome)) :=
  match plan with
  | [] => mret (Walked session response any_action, log)
  | step :: plan' =>
      exec_out ← executor a step session_id transcript;
      let eval_out := evaluator a exec_out in
      let log := log ++ [(step, exec_out)] in
      if truthy (reply exec_out) then
        mret (Returned (reply_response eval_out exec_out), log)
      else if bool_decide (status eval_out = Some FILLED) then
        session ← deref session_id session;
        mret (Walked session (Some eval_out) true, log)
      else
        run_plan a plan' session_id transcript session (Some eval_out) true log
  end.

Fixpoint loop (rounds : nat) (a : Agent world)
    (session_id transcript : str) (confidence : float) (session : Session)
    (response : option outcome) (iterations : nat)
    (log : list (step * outcome)) : M (state world) run :=
  match rounds with
  | O => mret (Run (fallback_response response) iterations log)
  | S rounds' =>
      session ← deref session_id session;
      let plan := planner a session transcript confidence in
      let iterations := S iterations in
      match plan with
      | [] => mret (Run (fallback_response response) iterations log)
      | _ :: _ =>
          r ← run_plan a plan session_id transcript session response false log;
          match r with
          | (Returned out, log) => mret (Run out iterations log)
          | (Walked session response any_action, log) =>
              if any_action then
                loop rounds' a session_id transcript confidence session
                     response iterations log
              else mret (Run (fallback_response response) iterations log)
          end
      end
  end.

(** [process_input], with the record of the run. The parameter [language]
    of the source is not used by it. *)
Definition process_input_run (a : Agent world) (session_id transcript : str)
    (confidence : float) : M (state world) run :=
  session ← get_session session_id;
  match session with
  | None =>
      mret (Run {| status := Some «"error"»; reply := None; eligible := None;
                   application_id := None; field := None;
                   error := Some «"session_not_found"» |} 0 [])
  | Some session =>
      add_history session_id USER transcript;;
      loop 5 a session_id transcript confidence session None 0 []
  end.

Definition process_input (a : Agent world) (session_id transcript : str)
    (confidence : float) : M (state world) outcome :=
  r ← process_input_run a session_id transcript confidence;
  mret (response r).
End agent.

(** The agent of the source: [Agent()]. *)
Definition agent `{Unicode} {world : Type} `{Collaborators world}
  : Agent world :=
  {| planner := plan; executor := execute; evaluator := evaluate |}.

(** * Around the core: recognition, transport and the retrying client *)

(** ** ASR confidence (src/asr.py) *)

Module Asr.
(** [min(a, b)] and [max(a, b)] of two floats: the builtins keep the first
    argument unless the second compares strictly below it (for [max]:
    above it), so a NaN in second place is never chosen. *)
Definition py_min (a b : float) : float := if (b <? a)%float then b else a.
Definition py_max (a b : float) : float := if (a <? b)%float then b else a.

(** A segment of Whisper's result: the value under "avg_logprob", [None]
    when the key is absent or holds [None]. *)
Record Segment := { avg_logprob : option float }.

(** Whisper's result as far as it is read: the values under "text" and
    "segments", [None] when the key is absent. *)
Record Recognition := {
  rec_text : option str;
  rec_segments : option (list Segment)
}.

(** The dict [transcribe_file] returns. *)
Record Transcript := {
  text : str;
  confidence : float;
  raw : Recognition
}.

(** The exceptions the callers tell apart: [NotImplementedError], and every
    other [Exception]. *)
Inductive error :=
  | NotImplementedError
  | OtherException.

Section asr.
Context `{Unicode}.

(** [sum(vals) / len(vals)] on a non-empty list of floats. How [sum] rounds
    depends on the interpreter (it compensates since CPython 3.12), so the
    mean is taken as given. *)
Variable mean : list float → float.

(** [whisper.load_model(model_name).transcribe(path, **kwargs)], with the
    language keyword when there is one. Whisper is a library, not code of
    this repository; a failed import of it is one of its failures. *)
Variable recognize : str → str → option str → error + Recognition.

(** [result] is [None] when what is passed is not a dict. *)
Definition _compute_confidence (result : option Recognition) : float :=
  let segments :=
    match result with
    | Some result => default [] (rec_segments result)
    | None => []
    end in
  match segments with
  | [] => 0%float
  | _ =>
      let vals := omap avg_logprob segments in
      match vals with
      | [] => 0%float
      | _ =>
          let mean := mean vals in
          let conf := (1 + mean)%float in
          py_max 0 (py_min 1 conf)
      end
  end.

Definition cloud_transcribe (path : str) (language : option str)
  : error + Transcript :=
  inl NotImplementedError.

Definition transcribe_file (path model_name : str) (language : option str)
    (use_cloud : bool) : error + Transcript :=
  if use_cloud then cloud_transcribe path language
  else
    let kwargs := if truthy language then language else None in
    match recognize model_name path kwargs with
    | inl e => inl e
    | inr result =>
        let text := strip (default [] (rec_text result)) in
        let confidence := _compute_confidence (Some result) in
        inr {| text := text; confidence := confidence; raw := result |}
    end.
End asr.
End Asr.

(** ** The endpoints (src/server.py) *)

Module Server.
(** What a request gets: the body of a 200, an [HTTPException] with its
    status code, or an exception that is not caught, which the framework
    turns into a 500. *)
Inductive http (A : Type) :=
  | Answer (body : A)
  | HTTPException (status_code : Z)
  | Uncaught (e : exn).
Arguments Answer {A}.
Arguments HTTPException {A}.
Arguments Uncaught {A}.

(** The body of a 200 of /transcribe; the key "clarify_prompt" is there
    only on a low confidence. *)
Record Transcription := {
  text : str;
  confidence : float;
  low_confidence : bool;
  clarify_prompt : option str
}.

Definition CLARIFY_PROMPT : str :=
  «"క్షమించండి, నేను మీరు చెప్పినది స్పష్టంగా గ్రహించలేకపోయాను. దయచేసి మళ్లీ చెప్పగలరా?"».

Section transcribe.
Context `{Unicode}.

(** The configuration read from the environment when the module loads. *)
Variable ASR_PROVIDER : str.
Variable ASR_CONFIDENCE_THRESHOLD : float.

Variable mean : list float → float.
Variable recognize : str → str → option str → Asr.error + Asr.Recognition.

(** [str(TMP_DIR / filename)] *)
Variable tmp_path : str → str.

(** POST /transcribe, for an upload named [filename]. Writing the upload to
    its path is not modelled. *)
Definition transcribe (filename : str) : http Transcription :=
  let path := tmp_path filename in
  let use_cloud := negb (bool_decide (ASR_PROVIDER = «"local"»)) in
  match Asr.transcribe_file mean recognize path «"small"» (Some «"te"»)
          use_cloud with
  | inl Asr.NotImplementedError => HTTPException 501
  | inl Asr.OtherException => HTTPException 500
  | inr result =>
      let text := Asr.text result in
      let confidence := Asr.confidence result in
      let low_confidence :=
        (confidence <? ASR_CONFIDENCE_THRESHOLD)%float in
      Answer {| text := text; confidence := confidence;
                low_confidence := low_confidence;
                clarify_prompt :=
                  if low_confidence then Some CLARIFY_PROMPT else None |}
  end.
End transcribe.
End Server.

Module Endpoint.
(** The JSON object posted to /agent, read at the keys "session_id",
    "transcript" and "confidence"; [None] is an absent key. The values are
    taken to have the types the endpoint documents. *)
Record Payload := {
  session_id : option str;
  transcript : option str;
  confidence : option float
}.

(** The body of a 200 of /agent. The keys "audio", "eligible" and
    "application_id" may be absent. *)
Record Response := {
  response_session_id : str;
  response_status : option str;
  response_reply : option str;
  response_audio : option str;
  response_eligible : option (list Scheme);
  response_application_id : option str
}.

(** The server: the session store with the collaborators of the agent, and
    the speech synthesised so far, as (text, file, language). *)
Record server (world : Type) := Server {
  core : state world;
  spoken : list (str * str * str)
}.
Arguments Server {world}.
Arguments core {world}.
Arguments spoken {world}.

Section agent_endpoint.
Context `{Unicode} {world : Type} `{Collaborators world}.

(** [create_session] of src/memory/store.py, which is not among the
    sources: it is taken as given, as a function of the language that acts
    on the store and returns the new identifier. *)
Variable create_session : str → state world → str * state world.

(** [str(TMP_DIR / f"reply_{session_id}.mp3")] *)
Variable reply_path : str → str.

(** POST /agent. [text_to_speech] of src/tts/tts.py is not among the
    sources either: its calls are recorded, and it is taken to return. *)
Definition agent_endpoint (payload : Payload) (sv : server world)
  : Server.http Response * server world :=
  let transcript := transcript payload in
  let confidence := default 1%float (confidence payload) in
  let session_id := session_id payload in
  let '(session_id, st) :=
    if negb (truthy session_id) then create_session «"te"» (core sv)
    else (default [] session_id, core sv) in
  if negb (truthy transcript) then
    (Server.HTTPException 400, Server st (spoken sv))
  else
    match process_input agent session_id (default [] transcript) confidence
            st with
    | Raise e st => (Server.Uncaught e, Server st (spoken sv))
    | Ok result st =>
        let tts_file :=
          if truthy (reply result) then Some (reply_path session_id)
          else None in
        let spoken :=
          match tts_file with
          | Some file =>
              spoken sv ++ [(default [] (reply result), file, «"te"»)]
          | None => spoken sv
          end in
        (Server.Answer
           {| response_session_id := session_id;
              response_status := status result;
              response_reply := reply result;
              response_audio := tts_file;
              response_eligible := eligible result;
              response_application_id :=
                if truthy (application_id result)
                then application_id result else None |},
         Server st spoken)
    end.
End agent_endpoint.
End Endpoint.

(** ** The retrying client (src/retry_client.py) *)

Module RetryClient.
(** The JSON object /transcribe answers, read at the keys "text",
    "confidence", "low_confidence" and "clarify_prompt"; [None] is an
    absent key, and [low_confidence] is the truth value of what the key
    holds (false when it is absent). *)
Record Transcription := {
  text : option str;
  confidence : option float;
  low_confidence : bool;
  clarify_prompt : option str
}.

(** What the client does to the outside, in order. *)
Inductive event :=
  | Transcribe (path : str)
  | CallAgent (transcript : str) (confidence : float)
      (session_id : option str)
  | RecordFn
  | TemporaryFile
  | DefaultRecord (duration : float) (filename : str)
  | Input.

Section client.
Context `{Unicode} {world response error : Type}.

(** The outside of the client, and what the client has done to it. *)
Record io := IO {
  outside : world;
  events : list event
}.

Inductive outcome (A : Type) :=
  | Done (a : A) (s : io)
  | Failed (e : error) (s : io).
Arguments Done {A}.
Arguments Failed {A}.

Definition final {A} (r : outcome A) : io :=
  match r with Done _ s => s | Failed _ s => s end.

(** Computations that act on the outside and may raise. *)
Definition Act (A : Type) : Type := io → outcome A.

#[export] Instance Act_ret : MRet Act := λ A a s, Done a s.
#[export] Instance Act_bind : MBind Act := λ A B f m s,
  match m s with
  | Done a s' => f a s'
  | Failed e s' => Failed e s'
  end.

(** A call to the outside: it is recorded, acts on the outside, and returns
    or raises. *)
Definition perform {A} (e : event) (f : world → (error + A) * world)
  : Act A :=
  λ s, let '(r, w) := f (outside s) in
       let s' := IO w (events s ++ [e]) in
       match r with inr a => Done a s' | inl err => Failed err s' end.

(** [try: ... except Exception: ...], telling whether the body returned. *)
Definition attempt {A} (m : Act A) : Act (option A) :=
  λ s, match m s with
       | Done a s' => Done (Some a) s'
       | Failed _ s' => Done None s'
       end.

(** The outside: the two requests to the server ([transcribe_file] and
    [call_agent] post and decode, and raise on a failure of the transport
    or on an error status), the terminal, and the default recorder of
    src/audio/record_audio.py, which is not among the sources and may not
    be importable ([None]). *)
Record Services := {
  transcribe_file : str → world → (error + Transcription) * world;
  call_agent :
    str → float → option str → world → (error + response) * world;
  input : world → (error + str) * world;
  default_record : option (float → str → world → (error + ()) * world);
  temporary_file : world → (error + str) * world
}.

(** The fields of the client object that [run_flow] reads. *)
Record RetryClient := {
  max_retries : Z;
  auto_record : bool;
  record_fn : option (world → (error + str) * world)
}.

Variable services : Services.
Variable self : RetryClient.

(** The loop [while attempts < self.max_retries], by the number of rounds
    it has left. Printing and sleeping are not modelled. *)
Fixpoint rounds (remaining : nat) (auto_retry : bool) (audio_path : str)
    (session_id : option str) : Act (option response) :=
  match remaining with
  | O => mret None
  | S remaining =>
      resp ← perform (Transcribe audio_path)
                     (transcribe_file services audio_path);
      let last_transcript := default [] (text resp) in
      let last_conf := default 0%float (confidence resp) in
      if low_confidence resp then
        if auto_record self then
          match record_fn self with
          | None =>
              match default_record services with
              | None => mret None
              | Some default_record =>
                  new_file ← perform TemporaryFile
                                     (temporary_file services);
                  recorded ← attempt
                    (perform (DefaultRecord 3 new_file)
                             (default_record 3%float new_file));
                  match recorded with
                  | None => mret None
                  | Some _ => rounds remaining auto_retry new_file session_id
                  end
              end
          | Some record_fn =>
              audio_path ← perform RecordFn record_fn;
              rounds remaining auto_retry audio_path session_id
          end
        else if auto_retry then
          rounds remaining auto_retry audio_path session_id
        else
          ans ← perform Input (input services);
          if bool_decide (lower (strip ans) = «"r"») then mret None
          else rounds remaining auto_retry audio_path session_id
      else
        agent_resp ← perform
          (CallAgent last_transcript last_conf session_id)
          (call_agent services last_transcript last_conf session_id);
        mret (Some agent_resp)
  end.

Definition run_flow (audio_path : str) (auto_retry : bool)
  : Act (option response) :=
  let session_id := None in
  rounds (Z.to_nat (max_retries self)) auto_retry audio_path session_id.
End client.
Arguments io : clear implicits.
Arguments IO {world}.
Arguments outside {world}.
Arguments events {world}.
Arguments outcome : clear implicits.
Arguments Done {world error A}.
Arguments Failed {world error A}.
Arguments final {world error A}.
Arguments Services : clear implicits.
Arguments RetryClient : clear implicits.
End RetryClient.

(** * Vocabulary of the properties *)

(** [needle] occurs in [hay]: it is a contiguous part of it. *)
Definition occurs (needle hay : str) : Prop :=
  ∃ l r, hay = l ++ needle ++ r.

(** One of [tokens] occurs in [t]. *)
Definition mentions (tokens : list str) (t : str) : Prop :=
  ∃ tok, tok ∈ tokens ∧ occurs tok t.

Section vocabulary.
Context `{Unicode} {world : Type}.
Local Open Scope nat_scope.

Definition digit (c : char) : Prop := isdecimal c = true.

(** [run] is the first run of at least [lo] decimal characters of [s]: a
    block of at least [lo] decimal characters that the next character does
    not extend, such that no block of [lo] decimal characters of [s] starts
    before it. *)
Definition first_run (lo : nat) (s run : str) : Prop :=
  ∃ pre post,
    s = pre ++ run ++ post ∧ Forall digit run ∧ lo ≤ length run ∧
    (∀ c post', post = c :: post' → ¬ digit c) ∧
    (∀ l d r, s = l ++ d ++ r → Forall digit d → lo ≤ length d →
              length pre ≤ length l).

(** [s] has no block of [lo] decimal characters. *)
Definition no_run (lo : nat) (s : str) : Prop :=
  ∀ l d r, s = l ++ d ++ r → Forall digit d → length d < lo.

(** What the quantifier keeps of a run. *)
Definition capped (hi : option nat) (run : str) : str :=
  match hi with Some n => take n run | None => run end.

(** An offer is named by a query when its lower-cased name or identifier
    occurs in the lower-cased query. *)
Definition names (query : str) (s : Scheme) : Prop :=
  occurs (lower (scheme_name s)) (lower query)
  ∨ occurs (lower (scheme_id s)) (lower query).

(** The state after a fill step that stored [value] under [key], and its
    outcome. *)
Definition filled_state (session_id key : str) (value : Z)
    (session : Session) (st : state world) : state world :=
  State (<[session_id :=
             {| profile := <[key := value]> (profile session);
                waiting_for := None;
                last_eligibility := last_eligibility session;
                history := history session |}]> (sessions st))
        (env st) (calls st).

Definition filled_outcome (key : str) : outcome :=
  {| status := Some FILLED; reply := None; eligible := None;
     application_id := None; field := Some key; error := None |}.
End vocabulary.

(** An executed step whose outcome carries no reply. *)
Definition quiet (so : step * outcome) : Prop := truthy (reply so.2) = false.

(** An executed step whose outcome has the status "filled". *)
Definition filled (so : step * outcome) : Prop := status so.2 = Some FILLED.

(** The run ended at an outcome that carries a reply: it is the last one
    executed, none before it carries a reply, and the response is made
    from it. *)
Definition replied (r : run) : Prop :=
  ∃ before step o,
    executed r = before ++ [(step, o)] ∧ Forall quiet before
    ∧ truthy (reply o) = true ∧ response r = reply_response o o.

(** The run ended with no outcome carrying a reply: the response is the
    fallback, made from the last outcome when there is one. *)
Definition silent (r : run) : Prop :=
  Forall quiet (executed r)
  ∧ response r = fallback_response (snd <$> list.last (executed r)).

(** A concrete setting to run the model in: the ASCII character database,
    collaborators that know one scheme, and a store with one session. *)
Module Demo.
#[local] Existing Instance AsciiOnly.unicode.

Definition kisan : Scheme :=
  {| scheme_id := «"pm-kisan"»; scheme_name := «"PM Kisan"»;
     scheme_description := «"Income support for farmers"» |}.

(** The world is the number of applications submitted so far. *)
#[local] Instance collaborators : Collaborators nat :=
  {| check_eligibility profile n :=
       (if decide (is_Some (profile !! INCOME)) then [kisan] else [], n);
     submit_application profile n := («"APP-1"», S n);
     search_schemes query n := ([], n);
     get_scheme_by_id id n :=
       (if decide (id = scheme_id kisan) then Some kisan else None, n) |}.

Definition SID : str := «"s1"».

Definition session (profile : gmap str Z) (waiting : option str)
    (offers : option (list Scheme)) : Session :=
  {| profile := profile; waiting_for := waiting; last_eligibility := offers;
     history := [] |}.

Definition store (s : Session) : state nat := State {[ SID := s ]} 0%nat [].

Definition full_profile : gmap str Z := {[ AGE := 30%Z; INCOME := 50000%Z ]}.

(** A store whose session has been offered the scheme and waits for the
    answer. *)
Definition confirming : state nat :=
  store (session full_profile (Some CONFIRMATION) (Some [kisan])).

(** A planner and an executor that always fill, and never reply. *)
Definition always_filled : Agent nat :=
  {| planner := λ _ _ _, [FillField AGE];
     executor := λ _ _ _, mret (filled_outcome AGE);
     evaluator := evaluate |}.
End Demo.

#[local] Existing Instance Demo.collaborators.

(** The run of the agent that always fills, on a session that waits for
    nothing. *)
Definition always_filled_run : result (state nat) run :=
  process_input_run Demo.always_filled Demo.SID «"hello"» 1
    (Demo.store (Demo.session ∅ None None)).


(** ** Vocabulary of the further properties *)

(** The state a computation leaves, whether it returned or raised. *)
Definition state_after {S A} (r : result S A) : S :=
  match r with Ok _ s => s | Raise _ s => s end.

(** The session with the utterance recorded: what the planner reads in the
    first round of a call. *)
Definition heard (session : Session) (transcript : str) : Session :=
  {| profile := profile session; waiting_for := waiting_for session;
     last_eligibility := last_eligibility session;
     history := history session ++ [(USER, transcript)] |}.

Section more_vocabulary.
Context `{Unicode} {world : Type} `{Collaborators world}.

(** The decimal characters have the values 0 to 9. *)
Definition decimal_values : Prop :=
  ∀ c, isdecimal c = true → (0 ≤ todecimal c ≤ 9)%Z.

(** Each of [schemes] has a document, in whatever state the document store
    is asked. *)
Definition documented (schemes : list Scheme) : Prop :=
  ∀ s (w : world), s ∈ schemes →
    is_Some (get_scheme_by_id (scheme_id s) w).1.
End more_vocabulary.

(** The requests among the events of the client. *)
Definition is_transcribe (e : RetryClient.event) : bool :=
  match e with RetryClient.Transcribe _ => true | _ => false end.

Definition is_call_agent (e : RetryClient.event) : bool :=
  match e with RetryClient.CallAgent _ _ _ => true | _ => false end.

(** What a flow of at most [n] rounds adds to the events [from]: events that
    are no call of the agent, at most [n] of them transcriptions, and then
    the call of the agent, with [session_id], exactly when a response is
    returned, and possibly when the flow raises. *)
Definition flow_trace {world response error : Type} (n : nat)
    (session_id : option str) (from : list RetryClient.event)
    (r : RetryClient.outcome world error (option response)) : Prop :=
  ∃ before after,
    RetryClient.events (RetryClient.final r) = from ++ before ++ after
    ∧ Forall (λ e, is_call_agent e = false) before
    ∧ (length (filter (λ e, is_transcribe e = true) before) ≤ n)%nat
    ∧ match r with
      | RetryClient.Done (Some _) _ =>
          ∃ t c, after = [RetryClient.CallAgent t c session_id]
      | RetryClient.Done None _ => after = []
      | RetryClient.Failed _ _ =>
          after = [] ∨ ∃ t c, after = [RetryClient.CallAgent t c session_id]
      end.

(** The setting of the recognition side: the mean as CPython computed it
    before 3.12 (a plain left-to-right sum), a recogniser that always
    returns the same two scored segments and one without a score, and a
    session store whose new sessions are all called "new". *)
Module Studio.
Definition naive_mean (vals : list float) : float :=
  (fold_left PrimFloat.add vals 0 / PrimFloat.of_uint63
     (Uint63.of_Z (Z.of_nat (length vals))))%float.

Definition recognition : Asr.Recognition :=
  {| Asr.rec_text := Some «"  I am 30 years old "»;
     Asr.rec_segments :=
       Some [ {| Asr.avg_logprob := Some (-0.25)%float |};
              {| Asr.avg_logprob := None |};
              {| Asr.avg_logprob := Some (-0.5)%float |} ] |}.

Definition recognize (model_name path : str) (language : option str)
  : Asr.error + Asr.Recognition :=
  inr recognition.

Definition tmp_path (filename : str) : str := «"tmp/"» ++ filename.

Definition reply_path (session_id : str) : str :=
  «"tmp/reply_"» ++ session_id ++ «".mp3"».

Definition create_session (language : str) (st : state nat)
  : str * state nat :=
  («"new"»,
   State (<[«"new"» := Demo.session ∅ None None]> (sessions st))
         (env st) (calls st)).

Definition server (st : state nat) : Endpoint.server nat :=
  Endpoint.Server st [].
End Studio.

(** The doubles of src/test_retry_client.py: [FakeServer] counts the
    transcriptions and knows whether a new file has been recorded. *)
Module FakeServer.
Record fake := Fake {
  calls : nat;
  new_file_created : bool
}.

Record answer := {
  session_id : str;
  status : str;
  reply : str
}.

Definition HIGH : RetryClient.Transcription :=
  {| RetryClient.text :=
       Some «"నేను ప్రభుత్వ పథకాల కోసం దరఖాస్తు చేయాలనుకుంటున్నాను"»;
     RetryClient.confidence := Some 0x1.e666666666666p-1%float;
     RetryClient.low_confidence := false;
     RetryClient.clarify_prompt := None |}.

Definition LOW : RetryClient.Transcription :=
  {| RetryClient.text := Some «"గోపాల్"»;
     RetryClient.confidence := Some 0x1.999999999999ap-3%float;
     RetryClient.low_confidence := true;
     RetryClient.clarify_prompt := Some «"క్షమించండి, మళ్ళీ చెప్పండి"» |}.

(** [post_transcribe(path, files)]; [path] here is [files.get("path")],
    [None] when [files] is empty. *)
Definition post_transcribe (path : option str) (self : fake)
  : RetryClient.Transcription * fake :=
  let self := Fake (S (calls self)) (new_file_created self) in
  if new_file_created self || bool_decide (path = Some «"new_audio.wav"»)
  then (HIGH, self)
  else if bool_decide (calls self = 1%nat) then (LOW, self)
  else (HIGH, self).

Definition post_agent : answer :=
  {| session_id := «"sess-1"»; status := «"asked_age"»;
     reply := «"దయచేసి మీ వయస్సు చెప్పండి."» |}.

(** The client of [test_retry_client_simulated], with its patched
    methods. *)
Definition simulated : RetryClient.Services fake answer () :=
  {| RetryClient.transcribe_file p self :=
       let '(resp, self) := post_transcribe None self in (inr resp, self);
     RetryClient.call_agent t c session_id self := (inr post_agent, self);
     RetryClient.input self := (inr [], self);
     RetryClient.default_record := None;
     RetryClient.temporary_file self := (inr [], self) |}.

Definition client : RetryClient.RetryClient fake () :=
  {| RetryClient.max_retries := 3; RetryClient.auto_record := false;
     RetryClient.record_fn := None |}.

(** The client of [test_auto_rerecord_simulated]. *)
Definition fake_record (self : fake) : (() + str) * fake :=
  (inr «"new_audio.wav"», Fake (calls self) true).

Definition rerecording : RetryClient.Services fake answer () :=
  {| RetryClient.transcribe_file p self :=
       let '(resp, self) := post_transcribe (Some p) self in
       (inr resp, self);
     RetryClient.call_agent t c session_id self := (inr post_agent, self);
     RetryClient.input self := (inr [], self);
     RetryClient.default_record := None;
     RetryClient.temporary_file self := (inr [], self) |}.

Definition recording_client : RetryClient.RetryClient fake () :=
  {| RetryClient.max_retries := 3; RetryClient.auto_record := true;
     RetryClient.record_fn := Some fake_record |}.

(** A server that never understands. *)
Definition deaf : RetryClient.Services fake answer () :=
  {| RetryClient.transcribe_file p self :=
       (inr LOW, Fake (S (calls self)) (new_file_created self));
     RetryClient.call_agent t c session_id self := (inr post_agent, self);
     RetryClient.input self := (inr [], self);
     RetryClient.default_record := None;
     RetryClient.temporary_file self := (inr [], self) |}.

Definition start : RetryClient.io fake := RetryClient.IO (Fake 0 false) [].
End FakeServer.
(** * Properties *)

(** ** Text *)

Lemma startswith_spec (p s : str) :
  startswith p s = true ↔ ∃ r, s = p ++ r.
Proof.
  revert s; induction p as [|a p IH]; intros s; simpl.
  - split; [eauto|done].
  - destruct s as [|b s].
    + split; [done|]. by intros [r Hr].
    + rewrite andb_true_iff, N.eqb_eq, IH. split.
      * intros [-> [r ->]]. eauto.
      * intros [r Hr]. simplify_eq/=. eauto.
Qed.

Lemma contains_spec (needle hay : str) :
  contains needle hay = true ↔ occurs needle hay.
Proof.
  unfold occurs. induction hay as [|c hay IH]; simpl.
  - rewrite orb_false_r, startswith_spec. split.
    + intros [r Hr]. by exists [], r.
    + intros (l & r & Hlr). symmetry in Hlr.
      apply app_eq_nil in Hlr as [-> Hr]. exists r. by rewrite Hr.
  - rewrite orb_true_iff, startswith_spec, IH. split.
    + intros [[r Hr]|(l & r & Hlr)].
      * by exists [], r.
      * exists (c :: l), r. by rewrite Hlr.
    + intros ([|c' l] & r & Hlr); simpl in Hlr.
      * left; eauto.
      * right. simplify_eq. eauto.
Qed.

Lemma any_in_spec (tokens : list str) (t : str) :
  any_in tokens t = true ↔ mentions tokens t.
Proof.
  unfold any_in, mentions. rewrite existsb_exists.
  setoid_rewrite contains_spec. setoid_rewrite list_elem_of_In. done.
Qed.

Lemma any_in_false (tokens : list str) (t : str) :
  any_in tokens t = false ↔ ¬ mentions tokens t.
Proof. rewrite <- any_in_spec. by destruct (any_in tokens t). Qed.

Lemma occurs_nil (needle : str) : occurs needle [] → needle = [].
Proof.
  intros (l & r & Hlr). symmetry in Hlr.
  apply app_eq_nil in Hlr as [_ Hlr]. by apply app_eq_nil in Hlr as [-> _].
Qed.

Lemma mentions_nil (tokens : list str) :
  Forall (λ tok, tok ≠ []) tokens → ¬ mentions tokens [].
Proof.
  intros Hne (tok & Htok & Hocc). rewrite Forall_forall in Hne.
  apply (Hne tok); [by apply list_elem_of_In|by apply occurs_nil].
Qed.

(** ** Confirmation parser *)

Section confirmation_facts.
Context `{Unicode}.

Lemma strip_nil : strip [] = [].
Proof. reflexivity. Qed.

Lemma yes_tokens_nonempty : Forall (λ tok : str, tok ≠ []) yes_tokens.
Proof. repeat constructor; discriminate. Qed.

Lemma no_tokens_nonempty : Forall (λ tok : str, tok ≠ []) no_tokens.
Proof. repeat constructor; discriminate. Qed.

(** C7. The confirmation parser is a total function into the three answers
    ([Some true] affirmative, [Some false] negative, [None] ambiguous). With
    [t] the stripped, lower-cased text: the answer is affirmative exactly
    when an affirmative token occurs in [t] and no negative one does,
    negative exactly when a negative token occurs and no affirmative one
    does, and ambiguous exactly in the remaining cases: no token at all, or
    tokens of both kinds. *)
Theorem parse_confirmation_spec (transcript : str) :
  let t := lower (strip transcript) in
  let yes := mentions yes_tokens t in
  let no := mentions no_tokens t in
  (parse_confirmation transcript = Some true ↔ yes ∧ ¬ no) ∧
  (parse_confirmation transcript = Some false ↔ no ∧ ¬ yes) ∧
  (parse_confirmation transcript = None ↔ (¬ yes ∧ ¬ no) ∨ (yes ∧ no)).
Proof.
  intros t yes no. unfold parse_confirmation. fold t.
  assert (Hempty : nonempty transcript = false → ¬ yes ∧ ¬ no).
  { destruct transcript; [intros _|done].
    subst yes no t. rewrite strip_nil, lower_nil.
    split; apply mentions_nil;
      [apply yes_tokens_nonempty|apply no_tokens_nonempty]. }
  assert (Hyes : any_in yes_tokens t = true ↔ yes) by apply any_in_spec.
  assert (Hno : any_in no_tokens t = true ↔ no) by apply any_in_spec.
  clearbody yes no t.
  destruct (nonempty transcript); cbn [negb].
  - clear Hempty.
    destruct (any_in yes_tokens t), (any_in no_tokens t); cbn [andb negb];
      intuition congruence.
  - destruct Hempty as [Hy Hn]; [done|]. intuition congruence.
Qed.
End confirmation_facts.

(** ** Runs of decimal characters *)

Section digit_facts.
Context `{Unicode}.
Local Open Scope nat_scope.

Lemma take_digits_split (s : str) :
  ∃ post, s = take_digits None s ++ post ∧ Forall digit (take_digits None s)
          ∧ (∀ c post', post = c :: post' → ¬ digit c).
Proof.
  induction s as [|c s (post & Hs & Hrun & Hpost)]; simpl.
  - exists []. by split_and!.
  - destruct (isdecimal c) eqn:Hc.
    + exists post. split_and!; [simpl; congruence|by constructor|done].
    + exists (c :: s). split_and!; [done|constructor|].
      intros ? ? [= <- <-]. unfold digit. congruence.
Qed.

Lemma take_digits_capped (hi : option nat) (s : str) :
  take_digits hi s = capped hi (take_digits None s).
Proof.
  destruct hi as [n|]; [|done]. simpl.
  revert n; induction s as [|c s IH]; intros [|n]; simpl; try done.
  destruct (isdecimal c); [|done]. by rewrite IH.
Qed.

Lemma take_digits_extends (d r : str) :
  Forall digit d → ∃ d', take_digits None (d ++ r) = d ++ d'.
Proof.
  induction 1 as [|c d Hc _ [d' IH]]; simpl; [eauto|].
  rewrite Hc, IH. eauto.
Qed.

Lemma take_digits_maximal (run post : str) :
  Forall digit run → (∀ c post', post = c :: post' → ¬ digit c) →
  take_digits None (run ++ post) = run.
Proof.
  intros Hrun Hpost. induction Hrun as [|c run Hc _ IH]; simpl.
  - destruct post as [|c post]; [done|]. simpl.
    destruct (isdecimal c) eqn:Hc; [|done]. by destruct (Hpost c post).
  - by rewrite Hc, IH.
Qed.

Lemma capped_length (lo : nat) (hi : option nat) (run : str) :
  match hi with Some n => lo ≤ n | None => True end →
  length (capped hi run) < lo ↔ length run < lo.
Proof. destruct hi as [n|]; simpl; [rewrite length_take|]; lia. Qed.

(** A block at the head of [s] is matched at the head. *)
Lemma match_digits_head (lo : nat) (hi : option nat) (d r : str) :
  match hi with Some n => lo ≤ n | None => True end →
  Forall digit d → lo ≤ length d → is_Some (match_digits lo hi (d ++ r)).
Proof.
  intros Hhi Hd Hlen. unfold match_digits.
  destruct (take_digits_extends d r Hd) as [d' Hd'].
  destruct (Nat.leb_spec lo (length (take_digits hi (d ++ r)))) as [|Hlt];
    [done|].
  rewrite take_digits_capped, capped_length, Hd', length_app in Hlt by done.
  lia.
Qed.

Lemma search_digits_Some (lo : nat) (hi : option nat) (s m : str) :
  match hi with Some n => lo ≤ n | None => True end →
  search_digits lo hi s = Some m →
  ∃ run, first_run lo s run ∧ m = capped hi run.
Proof.
  intros Hhi. induction s as [|c s IH]; simpl.
  - unfold match_digits; simpl.
    destruct (lo <=? 0) eqn:Hlo; [|by destruct hi as [[]|]].
    apply Nat.leb_le in Hlo. intros Hm. exists [].
    split; [|by destruct hi as [[]|]; simplify_eq].
    exists [], []. split_and!; try done. simpl. lia.
  - destruct (match_digits lo hi (c :: s)) as [m'|] eqn:Hhead.
    + intros [= ->]. unfold match_digits in Hhead.
      destruct (Nat.leb_spec lo (length (take_digits hi (c :: s))))
        as [Hlen|]; [|done].
      simplify_eq. rewrite take_digits_capped in Hlen |- *.
      exists (take_digits None (c :: s)). split; [|done].
      destruct (take_digits_split (c :: s)) as (post & Hs & Hrun & Hpost).
      exists [], post. split_and!; try done; [|simpl; lia].
      revert Hlen. unfold capped. destruct hi; [rewrite length_take|]; lia.
    + intros (run & (pre & post & -> & Hrun & Hlen & Hpost & Hfirst) & ->)%IH.
      exists run. split; [|done].
      exists (c :: pre), post. split_and!; try done.
      intros [|c' l] d r Hs Hd Hlo.
      * simpl in Hs. rewrite Hs in Hhead.
        destruct (match_digits_head lo hi d r) as [? Hsome]; try done.
        congruence.
      * simplify_eq/=. apply le_n_S. by eapply Hfirst.
Qed.

Lemma search_digits_None (lo : nat) (hi : option nat) (s : str) :
  match hi with Some n => lo ≤ n | None => True end →
  search_digits lo hi s = None → no_run lo s.
Proof.
  intros Hhi. induction s as [|c s IH]; simpl.
  - unfold match_digits; simpl.
    destruct (Nat.leb_spec lo 0) as [|Hlt]; [done|].
    intros _ l d r Hs Hd. symmetry in Hs.
    by apply app_eq_nil in Hs as [_ [-> _]%app_eq_nil].
  - destruct (match_digits lo hi (c :: s)) as [m'|] eqn:Hhead; [done|].
    intros Hnone%IH [|c' l] d r Hs Hd.
    + simpl in Hs. rewrite Hs in Hhead.
      destruct (Nat.lt_ge_cases (length d) lo) as [|Hlo]; [done|].
      destruct (match_digits_head lo hi d r) as [? Hsome]; try done.
      congruence.
    + simplify_eq/=. by eapply Hnone.
Qed.

Lemma first_run_unique (lo : nat) (s run1 run2 : str) :
  first_run lo s run1 → first_run lo s run2 → run1 = run2.
Proof.
  intros (pre1 & post1 & Hs1 & Hrun1 & Hlen1 & Hpost1 & Hfirst1)
         (pre2 & post2 & Hs2 & Hrun2 & Hlen2 & Hpost2 & Hfirst2).
  assert (length pre1 = length pre2) as Hpre.
  { apply Nat.le_antisymm; [by eapply Hfirst1|by eapply Hfirst2]. }
  rewrite Hs1 in Hs2. apply app_inj_1 in Hs2 as [_ Hrest]; [|done].
  rewrite <- (take_digits_maximal run1 post1), <- (take_digits_maximal run2 post2)
    by done.
  by rewrite Hrest.
Qed.

(** The search finds the first run, cut at the cap. *)
Lemma search_digits_first_run (lo : nat) (hi : option nat) (s run : str) :
  match hi with Some n => lo ≤ n | None => True end →
  first_run lo s run → search_digits lo hi s = Some (capped hi run).
Proof.
  intros Hhi Hrun. destruct (search_digits lo hi s) as [m|] eqn:Hsearch.
  - apply search_digits_Some in Hsearch as (run' & Hrun' & ->); [|done].
    by rewrite (first_run_unique _ _ _ _ Hrun Hrun').
  - apply search_digits_None in Hsearch; [|done].
    destruct Hrun as (pre & post & Hs & Hd & Hlen & _).
    specialize (Hsearch pre run post Hs Hd). lia.
Qed.

(** With no cap, what the search finds is the first run. *)
Lemma search_digits_is_first_run (lo : nat) (s run : str) :
  search_digits lo None s = Some run → first_run lo s run.
Proof.
  intros (run' & Hrun & ->)%search_digits_Some; done.
Qed.

(** The search fails when there is no run. *)
Lemma search_digits_no_run (lo : nat) (hi : option nat) (s : str) :
  match hi with Some n => lo ≤ n | None => True end →
  no_run lo s → search_digits lo hi s = None.
Proof.
  intros Hhi Hnone. destruct (search_digits lo hi s) as [m|] eqn:Hsearch; [|done].
  apply search_digits_Some in Hsearch
    as (run & (pre & post & Hs & Hd & Hlen & _) & _); [|done].
  specialize (Hnone pre run post Hs Hd). lia.
Qed.

(** A text with no decimal character has no run. *)
Lemma no_digit_no_run (s : str) :
  Forall (λ c, ¬ digit c) s → no_run 1 s.
Proof.
  intros Hs l d r -> Hd. destruct d as [|c d]; [simpl; lia|].
  apply Forall_app in Hs as [_ Hs]. apply Forall_app in Hs as [Hs _].
  apply Forall_inv in Hs, Hd. done.
Qed.

(** Replacing the comma by nothing removes the commas. *)
Lemma replace_comma (s : str) :
  replace COMMA [] s = filter (λ c, c ≠ COMMA) s.
Proof.
  unfold replace. induction s as [|c s IH]; [done|]. simpl. rewrite IH.
  destruct (N.eqb_spec c COMMA) as [->|Hne].
  - by rewrite filter_cons_False by (by intros []).
  - by rewrite filter_cons_True.
Qed.
End digit_facts.

(** ** Planner *)

Lemma SFcompare_antisym (x y : spec_float) :
  SFcompare y x = option_map CompOpp (SFcompare x y).
Proof.
  destruct x as [[]|[]| |[] m e], y as [[]|[]| |[] m' e']; try reflexivity;
    cbn [SFcompare option_map]; f_equal;
    rewrite (Z.compare_antisym e' e); destruct (e' ?= e)%Z;
    cbn [CompOpp]; try reflexivity;
    change (Pos.compare_cont Eq ?a ?b) with (Pos.compare a b);
    rewrite (Pos.compare_antisym m' m); destruct (m' ?= m)%positive;
    reflexivity.
Qed.

(** A confidence at or above the threshold is not below it. *)
Lemma not_below_threshold (confidence : float) :
  (THRESHOLD <=? confidence)%float = true →
  (confidence <? THRESHOLD)%float = false.
Proof.
  rewrite leb_spec, ltb_spec. unfold SFleb, SFltb.
  rewrite (SFcompare_antisym (Prim2SF THRESHOLD)).
  destruct (SFcompare _ _) as [[]|]; cbn; congruence.
Qed.

Section planner_facts.
Context `{Unicode}.

(** C1. Below the confidence threshold the planner yields exactly the
    re-recording step, whatever the session and the utterance are. *)
Theorem plan_low_confidence (session : Session) (transcript : str)
    (confidence : float) :
  (confidence <? THRESHOLD)%float = true →
  plan session transcript confidence = [ClarifyAsr].
Proof. intros Hlow. unfold plan. by rewrite Hlow. Qed.

(** C8. At or above the threshold the first rule that applies decides.
    Waiting for confirmation: a describe step carrying the raw utterance
    when a details keyword occurs in the (lower-cased) utterance, a confirm
    step otherwise. Waiting for a field: a fill step for that field. Not
    waiting: an ask step for the first of age, income that the profile
    lacks, and the eligibility check when it has both. *)
Theorem plan_decision_order (session : Session) (transcript : str)
    (confidence : float) :
  (THRESHOLD <=? confidence)%float = true →
  let waiting := waiting_for session in
  let details := mentions detail_keywords (lower transcript) in
  let steps := plan session transcript confidence in
  (waiting = Some CONFIRMATION → details →
     steps = [DescribeScheme transcript]) ∧
  (waiting = Some CONFIRMATION → ¬ details → steps = [Confirm]) ∧
  (∀ f, waiting = Some f → f ≠ [] → f ≠ CONFIRMATION →
     steps = [FillField f]) ∧
  (truthy waiting = false → profile session !! AGE = None →
     steps = [AskField AGE]) ∧
  (truthy waiting = false → is_Some (profile session !! AGE) →
     profile session !! INCOME = None → steps = [AskField INCOME]) ∧
  (truthy waiting = false → is_Some (profile session !! AGE) →
     is_Some (profile session !! INCOME) → steps = [CheckEligibility]).
Proof.
  intros Hhigh%not_below_threshold waiting details steps.
  subst steps. unfold plan. rewrite Hhigh. fold waiting.
  assert (Hd : any_in detail_keywords (lower transcript) = true ↔ details)
    by apply any_in_spec.
  clearbody details waiting. split_and!.
  - intros -> Hdet%Hd. cbn -[any_in]. by rewrite Hdet.
  - intros -> Hdet. cbn -[any_in].
    destruct (any_in detail_keywords (lower transcript)); [|done].
    destruct Hdet. by apply Hd.
  - intros f -> Hf Hconf. destruct f; [done|]. cbn [truthy nonempty].
    rewrite bool_decide_eq_false_2; [done|]. congruence.
  - intros -> Hage. by rewrite filter_cons_True.
  - intros -> [a Hage] Hinc.
    rewrite filter_cons_False by (by rewrite Hage).
    by rewrite filter_cons_True.
  - intros -> [a Hage] [i Hinc].
    rewrite filter_cons_False by (by rewrite Hage).
    by rewrite filter_cons_False by (by rewrite Hinc).
Qed.
End planner_facts.


(** ** Running the monad on a state that holds the session *)

Section store_facts.
Context {world : Type}.
Implicit Types (m : gmap str Session) (w : world) (c : list call).

Lemma bind_run {A B} (f : A → M (state world) B) (x : M (state world) A)
    (st : state world) :
  (x ≫= f) st =
  match x st with
  | Ok a st' => f a st'
  | Raise e st' => Raise e st'
  end.
Proof. reflexivity. Qed.

Lemma ret_run {A} (a : A) (st : state world) :
  (mret a : M (state world) A) st = Ok a st.
Proof. reflexivity. Qed.

Lemma get_session_run session_id session m w c :
  m !! session_id = Some session →
  get_session session_id (State m w c) = Ok (Some session) (State m w c).
Proof. intros Hs. unfold get_session; simpl. by rewrite Hs. Qed.

Lemma update_session_run session_id f session m w c :
  m !! session_id = Some session →
  update_session session_id f (State m w c)
  = Ok () (State (<[session_id := f session]> m) w c).
Proof.
  intros Hs. unfold update_session; simpl. by rewrite (alter_alt_Some _ _ _ _ Hs).
Qed.

(** After a first write the entry is the one written. *)
Lemma get_session_rerun session_id session m w c :
  get_session session_id (State (<[session_id := session]> m) w c)
  = Ok (Some session) (State (<[session_id := session]> m) w c).
Proof. apply get_session_run, lookup_insert_eq. Qed.

Lemma update_session_rerun session_id f session m w c :
  update_session session_id f (State (<[session_id := session]> m) w c)
  = Ok () (State (<[session_id := f session]> m) w c).
Proof. unfold update_session; simpl. by rewrite alter_insert_eq. Qed.

Lemma invoke_run {A} (k : call) (f : world → A * world) m w c :
  invoke k f (State m w c) = Ok (f w).1 (State m (f w).2 (c ++ [k])).
Proof. unfold invoke; simpl. by destruct (f w). Qed.
End store_facts.

(** One step of symbolic execution of a computation on a state
    [State m w c] whose session is known by a hypothesis on [m]. *)
Ltac mstep :=
  first
    [ rewrite bind_run
    | rewrite ret_run
    | rewrite get_session_rerun
    | rewrite update_session_rerun
    | erewrite get_session_run by eassumption
    | erewrite update_session_run by eassumption
    | rewrite invoke_run ];
  cbv beta iota.

Ltac mrun :=
  unfold set_waiting, add_history, set_last_eligibility, set_profile;
  repeat mstep.

(** ** Executor *)

Section executor_facts.
Context `{Unicode} {world : Type} `{Collaborators world}.
Implicit Types (st : state world) (session : Session).

(** C9. Under an identifier the store does not know, every step gives the
    error outcome, with no reply, and the call as a whole gives the error
    response; the state after is the state before: nothing was appended to
    a history, no session was created or changed. *)
Theorem unknown_session_is_an_error (a : Agent world) (step : step)
    (session_id transcript : str) (confidence : float) st :
  sessions st !! session_id = None →
  execute step session_id transcript st =
    Ok {| status := Some «"error"»; reply := None; eligible := None;
          application_id := None; field := None;
          error := Some «"no_session"» |} st
  ∧ process_input a session_id transcript confidence st =
    Ok {| status := Some «"error"»; reply := None; eligible := None;
          application_id := None; field := None;
          error := Some «"session_not_found"» |} st.
Proof.
  intros Hnone. split.
  - unfold execute. rewrite bind_run. unfold get_session. by rewrite Hnone.
  - unfold process_input, process_input_run. rewrite !bind_run.
    unfold get_session. by rewrite Hnone.
Qed.

(** C3. The confirm step on an existing session. An affirmative utterance:
    the submission collaborator is called once, with the profile of the
    session, the reply carries the identifier it returned and the session
    stops waiting. A negative utterance: the decline acknowledgment, the
    session stops waiting and no collaborator is called. An ambiguous one:
    the session waits for confirmation and the reply asks for yes or no. *)
Theorem execute_confirm (session_id transcript : str) st session :
  sessions st !! session_id = Some session →
  let after waiting reply :=
    {| profile := profile session; waiting_for := waiting;
       last_eligibility := last_eligibility session;
       history := history session ++ [(ASSISTANT, reply)] |} in
  (parse_confirmation transcript = Some true →
   ∀ app_id w, submit_application (profile session) (env st) = (app_id, w) →
   let reply :=
     «"మీ దరఖాస్తు విజయవంతంగా సమర్పించబడింది. దరఖాస్తు ID: "» ++ app_id in
   execute Confirm session_id transcript st =
     Ok {| status := Some «"submitted"»; reply := Some reply;
           eligible := None; application_id := Some app_id; field := None;
           error := None |}
        (State (<[session_id := after None reply]> (sessions st)) w
               (calls st ++ [CallSubmitApplication (profile session)])))
  ∧ (parse_confirmation transcript = Some false →
     let reply :=
       «"సరే, నేను దరఖాస్తును నిలిపివెతున్నాను. మరింత సహాయం కావాలనుకుంటే చెప్పండి."» in
     execute Confirm session_id transcript st =
       Ok {| status := Some «"declined"»; reply := Some reply;
             eligible := None; application_id := None; field := None;
             error := None |}
          (State (<[session_id := after None reply]> (sessions st)) (env st)
                 (calls st)))
  ∧ (parse_confirmation transcript = None →
     let reply := «"దయచేసి అవును లేదా కాదు అని చెప్పగలరా? (అవును/లేదు)"» in
     execute Confirm session_id transcript st =
       Ok {| status := Some «"confirm_ask"»; reply := Some reply;
             eligible := None; application_id := None; field := None;
             error := None |}
          (State (<[session_id := after (Some CONFIRMATION) reply]>
                    (sessions st)) (env st) (calls st))).
Proof.
  intros Hs after. destruct st as [m w0 c]; simpl in *. unfold execute.
  split_and!.
  - intros Hyes app_id w Hsub. mrun. rewrite Hyes. mrun.
    by rewrite Hsub.
  - intros Hno. mrun. rewrite Hno. by mrun.
  - intros Hamb. mrun. rewrite Hamb. by mrun.
Qed.

(** C5. The eligibility step on an existing session: the evaluator is
    called once with the profile of the session and its answer is stored as
    the last offers. A non-empty answer: the session waits for confirmation
    and the reply is the list of the offer names, comma separated, between
    the announcement and the yes/no prompt. An empty answer: the session
    stops waiting and the reply says that no offer matches. *)
Theorem execute_check_eligibility (session_id transcript : str) st session
    (offers : list Scheme) (w : world) :
  sessions st !! session_id = Some session →
  check_eligibility (profile session) (env st) = (offers, w) →
  let after waiting reply :=
    {| profile := profile session; waiting_for := waiting;
       last_eligibility := Some offers;
       history := history session ++ [(ASSISTANT, reply)] |} in
  let outcome reply :=
    {| status := Some «"eligible_check"»; reply := Some reply;
       eligible := Some offers; application_id := None; field := None;
       error := None |} in
  let trace := calls st ++ [CallCheckEligibility (profile session)] in
  (offers ≠ [] →
   let reply :=
     «"మీకు ఈ పథకాలకు అర్హత ఉంది: "» ++ join «", "» (scheme_name <$> offers) ++
     «". మీరు దరఖాస్తు చేయాలనుకుంటున్నారా? (అవును/లేదు)"» in
   execute CheckEligibility session_id transcript st =
     Ok (outcome reply)
        (State (<[session_id := after (Some CONFIRMATION) reply]> (sessions st))
               w trace))
  ∧ (offers = [] →
     let reply :=
       «"క్షమించండి, ప్రస్తుత సమాచారం ప్రకారం మీకు తెలియజేసేందుకు అనుకూలమైన పథకం కనిపించలేదు."» in
     execute CheckEligibility session_id transcript st =
       Ok (outcome reply)
          (State (<[session_id := after None reply]> (sessions st)) w trace)).
Proof.
  intros Hs Hcheck after outcome trace.
  destruct st as [m w0 c]; simpl in *. unfold execute. split.
  - intros Hne. mrun. rewrite Hcheck; cbn [fst snd].
    rewrite bool_decide_eq_true_2 by done. mrun. reflexivity.
  - intros ->. mrun. rewrite Hcheck; cbn [fst snd].
    rewrite bool_decide_eq_false_2 by (by intros []). mrun. reflexivity.
Qed.

#[export] Instance occurs_dec needle hay : Decision (occurs needle hay).
Proof.
  refine (cast_if (decide (contains needle hay = true)));
    by rewrite <- contains_spec.
Defined.

#[export] Instance names_dec query s : Decision (names query s).
Proof. unfold names. apply _. Defined.

Lemma filter_names (query : str) (l : list Scheme) :
  filter (λ s, contains (lower (scheme_name s)) (lower query)
               || contains (lower (scheme_id s)) (lower query)) l
  = filter (names query) l.
Proof.
  apply list_filter_iff. intros s. unfold names.
  by rewrite orb_True, !Is_true_true, !contains_spec.
Qed.

(** C6. The describe step on an existing session. The query (the one the
    step carries, the utterance when it carries none) is tried first on the
    last offers: those it names, in their order. The global search is called
    only when it names none of them. With no hit at all the reply says that
    no details were found; otherwise the reply is the name and the
    description that the document store has for the first hit. In each case
    the session is left waiting for confirmation and its last offers are
    unchanged. *)
Theorem execute_describe_scheme (session_id transcript query0 : str) st
    session :
  sessions st !! session_id = Some session →
  let query := if nonempty query0 then query0 else transcript in
  let local := filter (names query) (default [] (last_eligibility session)) in
  let after reply :=
    {| profile := profile session; waiting_for := Some CONFIRMATION;
       last_eligibility := last_eligibility session;
       history := history session ++ [(ASSISTANT, reply)] |} in
  let described (doc : Scheme) :=
    scheme_name doc ++ «": "» ++ scheme_description doc in
  let outcome status reply :=
    {| status := Some status; reply := Some reply; eligible := None;
       application_id := None; field := None; error := None |} in
  (∀ first rest doc w,
     local = first :: rest →
     get_scheme_by_id (scheme_id first) (env st) = (Some doc, w) →
     execute (DescribeScheme query0) session_id transcript st =
       Ok (outcome «"describe"» (described doc))
          (State (<[session_id := after (described doc)]> (sessions st)) w
                 (calls st ++ [CallGetSchemeById (scheme_id first)])))
  ∧ (∀ first rest w1 doc w2,
       local = [] →
       search_schemes query (env st) = (first :: rest, w1) →
       get_scheme_by_id (scheme_id first) w1 = (Some doc, w2) →
       execute (DescribeScheme query0) session_id transcript st =
         Ok (outcome «"describe"» (described doc))
            (State (<[session_id := after (described doc)]> (sessions st)) w2
                   (calls st ++ [CallSearchSchemes query;
                                 CallGetSchemeById (scheme_id first)])))
  ∧ (∀ w1,
       local = [] →
       search_schemes query (env st) = ([], w1) →
       let reply :=
         «"క్షమించండి, ఆ పథకం గురించి వివరాలు నాకు లభించలేదు. మీరు మరొకటి అడగాలనుకుంటున్నారా?"» in
       execute (DescribeScheme query0) session_id transcript st =
         Ok (outcome «"no_details"» reply)
            (State (<[session_id := after reply]> (sessions st)) w1
                   (calls st ++ [CallSearchSchemes query]))).
Proof.
  intros Hs query local after described outcome.
  destruct st as [m w0 c]; simpl in *. unfold execute. fold query.
  split_and!.
  - intros first rest doc w Hlocal Hdoc. mrun.
    rewrite filter_names. fold local. rewrite Hlocal.
    rewrite bool_decide_eq_false_2 by done. mrun.
    rewrite Hdoc; cbn [fst snd]. mrun. reflexivity.
  - intros first rest w1 doc w2 Hlocal Hsearch Hdoc. mrun.
    rewrite filter_names. fold local. rewrite Hlocal.
    rewrite bool_decide_eq_true_2 by done. mrun.
    rewrite Hsearch; cbn [fst snd]. mrun. rewrite Hdoc; cbn [fst snd]. mrun.
    rewrite <- app_assoc. reflexivity.
  - intros w1 Hlocal Hsearch. mrun.
    rewrite filter_names. fold local. rewrite Hlocal.
    rewrite bool_decide_eq_true_2 by done. mrun.
    rewrite Hsearch; cbn [fst snd]. mrun. reflexivity.
Qed.

(** What [_parse_and_set_field] does on an existing session, by what the
    search finds. *)
Lemma parse_and_set_field_age (session_id transcript : str) session
    (m : gmap str Session) (w : world) (c : list call) :
  m !! session_id = Some session →
  _parse_and_set_field session_id AGE transcript (State m w c) =
  match search_digits 1 (Some 3%nat) transcript with
  | Some d =>
      Ok true
         (State (<[session_id :=
                     {| profile := <[AGE := int d]> (profile session);
                        waiting_for := waiting_for session;
                        last_eligibility := last_eligibility session;
                        history := history session |}]> m) w c)
  | None => Ok false (State m w c)
  end.
Proof.
  intros Hs. unfold _parse_and_set_field. mrun.
  rewrite bool_decide_eq_true_2 by done.
  destruct (search_digits _ _ _); by mrun.
Qed.

Lemma parse_and_set_field_income (session_id transcript : str) session
    (m : gmap str Session) (w : world) (c : list call) :
  m !! session_id = Some session →
  _parse_and_set_field session_id INCOME transcript (State m w c) =
  match search_digits 3 None (replace COMMA [] transcript) with
  | Some d =>
      Ok true
         (State (<[session_id :=
                     {| profile := <[INCOME := int d]> (profile session);
                        waiting_for := waiting_for session;
                        last_eligibility := last_eligibility session;
                        history := history session |}]> m) w c)
  | None => Ok false (State m w c)
  end.
Proof.
  intros Hs. unfold _parse_and_set_field. mrun.
  rewrite bool_decide_eq_false_2 by done.
  rewrite bool_decide_eq_true_2 by done.
  destruct (search_digits _ _ _); by mrun.
Qed.

Lemma parse_and_set_field_other (session_id field transcript : str) session
    (m : gmap str Session) (w : world) (c : list call) :
  m !! session_id = Some session → field ≠ AGE → field ≠ INCOME →
  _parse_and_set_field session_id field transcript (State m w c)
  = Ok false (State m w c).
Proof.
  intros Hs Hage Hincome. unfold _parse_and_set_field. mrun.
  by rewrite !bool_decide_eq_false_2 by done.
Qed.

Lemma execute_fill_age_found (session_id transcript run : str) st session :
  sessions st !! session_id = Some session →
  first_run 1 transcript run →
  execute (FillField AGE) session_id transcript st =
    Ok (filled_outcome AGE)
       (filled_state session_id AGE (int (take 3 run)) session st).
Proof.
  intros Hs Hrun. destruct st as [m w c]; simpl in *.
  unfold execute. mrun.
  erewrite parse_and_set_field_age by done.
  rewrite (search_digits_first_run 1 (Some 3%nat) _ run) by (done || simpl; lia).
  cbn [capped negb]. by mrun.
Qed.

Lemma execute_fill_income_found (session_id transcript run : str) st session :
  sessions st !! session_id = Some session →
  first_run 3 (filter (λ c, c ≠ COMMA) transcript) run →
  execute (FillField INCOME) session_id transcript st =
    Ok (filled_outcome INCOME)
       (filled_state session_id INCOME (int run) session st).
Proof.
  intros Hs Hrun. destruct st as [m w c]; simpl in *.
  unfold execute. mrun.
  erewrite parse_and_set_field_income by done.
  rewrite replace_comma.
  rewrite (search_digits_first_run 3 None _ run) by done.
  cbn [capped negb]. by mrun.
Qed.

(** C4. The fill step on an existing session. For the age, with [run] the
    first run of decimal characters of the utterance: its first three
    characters at most are read as an integer and stored. For the income,
    with [run] the first run of three or more decimal characters of the
    utterance without its commas: it is read as an integer and stored. In
    both cases the session stops waiting and the outcome is "filled", with
    no reply. When there is no such run, or the field is neither of the
    two, the session waits for the same field, the reply asks to restate it
    and the profile is as before. *)
Theorem execute_fill_field (session_id transcript field : str) st session :
  sessions st !! session_id = Some session →
  let income_text := filter (λ c, c ≠ COMMA) transcript in
  (∀ run, field = AGE → first_run 1 transcript run →
     execute (FillField field) session_id transcript st =
       Ok (filled_outcome AGE)
          (filled_state session_id AGE (int (take 3 run)) session st))
  ∧ (∀ run, field = INCOME → first_run 3 income_text run →
       execute (FillField field) session_id transcript st =
         Ok (filled_outcome INCOME)
            (filled_state session_id INCOME (int run) session st))
  ∧ ((field = AGE ∧ Forall (λ c, ¬ digit c) transcript)
     ∨ (field = INCOME ∧ no_run 3 income_text)
     ∨ (field ≠ AGE ∧ field ≠ INCOME) →
     let reply :=
       «"క్షమించండి, మీ "» ++ field ++ «" గురించి స్పష్టంగా చెప్పగలరా?"» in
     execute (FillField field) session_id transcript st =
       Ok {| status := Some «"ask"»; reply := Some reply; eligible := None;
             application_id := None; field := None; error := None |}
          (State (<[session_id :=
                      {| profile := profile session;
                         waiting_for := Some field;
                         last_eligibility := last_eligibility session;
                         history := history session ++ [(ASSISTANT, reply)] |}]>
                    (sessions st)) (env st) (calls st))).
Proof.
  intros Hs income_text. split_and!.
  - intros run ->. by apply execute_fill_age_found.
  - intros run ->. by apply execute_fill_income_found.
  - intros Hfail. destruct st as [m w c]; simpl in *.
    unfold execute. mrun.
    assert (_parse_and_set_field session_id field transcript (State m w c)
            = Ok false (State m w c)) as ->.
    { destruct Hfail as [[-> Hnone]|[[-> Hnone]|[Hage Hincome]]].
      - erewrite parse_and_set_field_age by done.
        rewrite search_digits_no_run; [done|simpl; lia|].
        by apply no_digit_no_run.
      - erewrite parse_and_set_field_income by done.
        by rewrite replace_comma, search_digits_no_run.
      - by eapply parse_and_set_field_other. }
    cbn [negb]. mrun. reflexivity.
Qed.

(** C10. An utterance whose first run of decimal characters is longer than
    three characters fills the age all the same: the step succeeds and the
    age stored is the integer written by the first three characters of the
    run, whatever that integer is. *)
Theorem execute_fill_age_truncates (session_id transcript run : str) st
    session :
  sessions st !! session_id = Some session →
  first_run 1 transcript run →
  (3 < length run)%nat →
  take 3 run ≠ run
  ∧ execute (FillField AGE) session_id transcript st =
      Ok (filled_outcome AGE)
         (filled_state session_id AGE (int (take 3 run)) session st).
Proof.
  intros Hs Hrun Hlong. split; [|by apply execute_fill_age_found].
  intros Heq. apply (f_equal length) in Heq. rewrite length_take in Heq. lia.
Qed.

(** The executor returns on every step, provided the document store has a
    document for every identifier it is asked for: the describe step reads
    the name of the document without checking that there is one. *)
Lemma execute_returns (session_id transcript : str) :
  (∀ id w, is_Some (get_scheme_by_id id w).1) →
  ∀ step st, ∃ o st', execute step session_id transcript st = Ok o st'.
Proof.
  intros Hdocs step [m w c]. unfold execute. rewrite bind_run.
  unfold get_session at 1. cbn [sessions].
  destruct (m !! session_id) as [session|] eqn:Hs; [|by eexists _, _].
  destruct step as [|f|f| |q| | |n]; try (mrun; by eexists _, _).
  - repeat case_bool_decide; mrun; by eexists _, _.
  - rewrite bind_run. unfold _parse_and_set_field. mrun.
    repeat case_bool_decide; try destruct (search_digits _ _ _);
      mrun; by eexists _, _.
  - mrun. case_bool_decide; mrun; by eexists _, _.
  - mrun. set (local := filter _ _). clearbody local.
    case_bool_decide as Hlocal; mrun.
    + destruct (search_schemes _ w) as [[|first rest] w1]; cbn [fst snd];
        mrun; [by eexists _, _|].
      destruct (Hdocs (scheme_id first) w1) as [doc ->].
      mrun. by eexists _, _.
    + destruct local as [|first rest]; [done|]. mrun.
      destruct (Hdocs (scheme_id first) w) as [doc ->].
      mrun. by eexists _, _.
  - destruct (parse_confirmation transcript) as [[]|]; mrun; by eexists _, _.
Qed.
End executor_facts.

(** ** Orchestration loop *)

Section loop_facts.
Context {world : Type}.
Variable p : Session → str → float → list step.
Variable e : step → str → str → M (state world) outcome.
Variables session_id transcript : str.
Variable confidence : float.

(** The agent with planner [p], executor [e] and the evaluator of the
    source. *)
Let a : Agent world := {| planner := p; executor := e; evaluator := evaluate |}.

(** The executor returns: it does not raise. *)
Hypothesis e_returns : ∀ step st, ∃ o st', e step session_id transcript st = Ok o st'.

Lemma run_plan_spec (plan : list step) (session : Session)
    (resp : option outcome) (any_action : bool)
    (log : list (step * outcome)) (st : state world) :
  resp = snd <$> list.last log → Forall quiet log →
  ∃ w log' st',
    run_plan a plan session_id transcript session resp any_action log st
    = Ok (w, log') st'
    ∧ match w with
      | Returned out =>
          ∃ new step o,
            log' = log ++ new ++ [(step, o)] ∧ Forall quiet new
            ∧ truthy (reply o) = true ∧ out = reply_response o o
      | Walked _ resp' any_action' =>
          Forall quiet log' ∧ resp' = snd <$> list.last log'
          ∧ ∃ new,
              log' = log ++ new
              ∧ (plan = [] → any_action' = any_action)
              ∧ (plan ≠ [] → any_action' = true)
              ∧ (plan ≠ [] → Forall filled new → length new = 1%nat)
      end.
Proof.
  revert resp any_action log st.
  induction plan as [|step plan IH]; intros resp any_action log st Hresp Hlog.
  - eexists _, _, _. split; [reflexivity|]. split_and!; try done.
    exists []. by rewrite app_nil_r.
  - cbn [run_plan]. rewrite bind_run.
    change (executor a step session_id transcript)
      with (e step session_id transcript).
    destruct (e_returns step st) as (o & st1 & ->).
    change (evaluator a o) with o.
    destruct (truthy (reply o)) eqn:Hreply.
    + eexists _, _, _. split; [reflexivity|].
      exists [], step, o. by split_and!.
    + assert (Forall quiet (log ++ [(step, o)])) as Hlog'.
      { apply Forall_app. split; [done|]. by repeat constructor. }
      assert (Some o = snd <$> list.last (log ++ [(step, o)])) as Hresp'.
      { by rewrite last_snoc. }
      case_bool_decide as Hfilled.
      * eexists _, _, _. split; [reflexivity|]. split_and!; try done.
        exists [(step, o)]. by split_and!.
      * destruct (IH (Some o) true _ st1 Hresp' Hlog')
          as (w & log' & st' & -> & Hw).
        eexists _, _, _. split; [reflexivity|].
        destruct w as [out|session' resp' any_action'].
        -- destruct Hw as (new & step' & o' & -> & Hnew & Ho' & ->).
           exists ((step, o) :: new), step', o'.
           split_and!; try done; [by rewrite <- app_assoc|].
           constructor; [done|done].
        -- destruct Hw as (Hquiet & -> & new & -> & Hnil & Hcons & Hone).
           split_and!; try done.
           exists ((step, o) :: new). split_and!; try done.
           ++ by rewrite <- app_assoc.
           ++ intros _. destruct plan; [by apply Hnil|by apply Hcons].
           ++ intros _ [Hfill _]%Forall_cons_1. by destruct Hfilled.
Qed.

Lemma loop_spec (rounds : nat) (session : Session)
    (resp : option outcome) (iters : nat)
    (log : list (step * outcome)) (st : state world) :
  resp = snd <$> list.last log → Forall quiet log →
  ∃ r st',
    loop rounds a session_id transcript confidence session resp iters log st
    = Ok r st'
    ∧ (iters ≤ iterations r ≤ iters + rounds)%nat
    ∧ (replied r ∨ silent r)
    ∧ ∃ new,
        executed r = log ++ new
        ∧ ((∀ s, p s transcript confidence ≠ []) →
           Forall (λ so, quiet so ∧ filled so) new →
           iterations r = (iters + rounds)%nat ∧ length new = rounds).
Proof.
  revert session resp iters log st.
  induction rounds as [|rounds IH]; intros session resp iters log st Hresp Hlog.
  - eexists _, _. split; [reflexivity|]. cbn [iterations executed].
    split_and!; [lia..| |].
    + right. split; [done|]. cbn [response executed]. by rewrite Hresp.
    + exists []. rewrite app_nil_r. split; [done|]. intros _ _. split; [lia|done].
  - cbn [loop]. rewrite bind_run. unfold deref at 1. cbv beta iota.
    set (session1 := default session (sessions st !! session_id)).
    change (planner a session1 transcript confidence)
      with (p session1 transcript confidence).
    destruct (p session1 transcript confidence) as [|step plan] eqn:Hplan.
    + eexists _, _. split; [reflexivity|]. cbn [iterations executed].
      split_and!; [lia..| |].
      * right. split; [done|]. cbn [response executed]. by rewrite Hresp.
      * exists []. rewrite app_nil_r. split; [done|].
        intros Hp. by destruct (Hp session1).
    + rewrite bind_run.
      destruct (run_plan_spec (step :: plan) session1 resp false log st
                  Hresp Hlog) as (w & log' & st1 & -> & Hw).
      destruct w as [out|session' resp' any_action'].
      * destruct Hw as (new & step' & o' & -> & Hnew & Ho' & ->).
        eexists _, _. split; [reflexivity|]. cbn [iterations executed].
        split_and!; [lia..| |].
        -- left. exists (log ++ new), step', o'. cbn [response executed].
           split_and!; try done; [by rewrite <- app_assoc|].
           by apply Forall_app.
        -- exists (new ++ [(step', o')]). split; [done|].
           intros _ [_ [[Hq _] _]%Forall_cons_1]%Forall_app.
           unfold quiet in Hq; simpl in Hq. congruence.
      * destruct Hw as (Hquiet & -> & new & -> & _ & Hany & Hone).
        rewrite Hany by done.
        destruct (IH session' (snd <$> list.last (log ++ new)) (S iters)
                    (log ++ new) st1 eq_refl Hquiet)
          as (r & st' & -> & Hiters & Hshape & new' & Hexec & Hall).
        exists r, st'. split; [done|]. split_and!; [lia..|done|].
        exists (new ++ new'). split; [by rewrite Hexec, <- app_assoc|].
        intros Hp [Hnew Hnew']%Forall_app.
        destruct (Hall Hp Hnew') as [Hit Hlen].
        assert (length new = 1%nat) as Hone'.
        { apply Hone; [done|]. eapply Forall_impl; [|exact Hnew].
          by intros ? [_ ?]. }
        rewrite length_app. lia.
Qed.

(** C2, amended. A call on an existing session, with an executor that
    returns, returns after at most 5 rounds of planning and execution. It
    ends at the first outcome that carries a reply, and its response is
    made from that outcome; with no such outcome the response is the
    fallback. When the planner always plans a step and every executed step
    has status "filled" and no reply, the call makes exactly 5 rounds and
    executes 5 steps, and the fallback carries the status of the last
    outcome, "filled", with no reply. When no step was executed the
    response is the fallback with the status "no_action" and the empty
    reply; and a response has the status "no_action" only when no step was
    executed, or when the last outcome executed has that status itself or
    is the empty dict. *)
Theorem process_input_bounded (st : state world) (session : Session) :
  sessions st !! session_id = Some session →
  ∃ r st',
    process_input_run a session_id transcript confidence st = Ok r st'
    ∧ process_input a session_id transcript confidence st
      = Ok (response r) st'
    ∧ (iterations r ≤ 5)%nat
    ∧ (replied r ∨ silent r)
    ∧ ((∀ s, p s transcript confidence ≠ []) →
       Forall (λ so, quiet so ∧ filled so) (executed r) →
       iterations r = 5%nat ∧ length (executed r) = 5%nat
       ∧ status (response r) = Some FILLED
       ∧ truthy (reply (response r)) = false)
    ∧ (executed r = [] →
       status (response r) = Some NO_ACTION ∧ reply (response r) = Some [])
    ∧ (status (response r) = Some NO_ACTION →
       executed r = []
       ∨ ∃ step o,
           list.last (executed r) = Some (step, o)
           ∧ (status o = Some NO_ACTION ∨ nonempty_dict o = false)).
Proof.
  intros Hs. unfold process_input, process_input_run.
  destruct st as [m w c]; simpl in Hs.
  mrun.
  match goal with
  | |- context [loop 5 a _ _ _ ?s None 0%nat [] ?st1] =>
      destruct (loop_spec 5 s None 0 [] st1 eq_refl (Forall_nil _))
        as (r & st' & Hloop & Hiters & Hshape & new & Hexec & Hall)
  end.
  exists r, st'. rewrite Hloop. split_and!; [done|done|lia|done| | |].
  2:{ intros Hnil.
      destruct Hshape as [(before & step & o & Hex & _)|[_ Hresp]].
      - rewrite Hnil in Hex. by destruct before.
      - rewrite Hresp, Hnil. by split. }
  2:{ intros Hno.
      destruct Hshape as [(before & step & o & Hex & _ & _ & Hresp)
                         |[_ Hresp]].
      - right. exists step, o. rewrite Hex, last_snoc. split; [done|].
        left. by rewrite Hresp in Hno.
      - destruct (list.last (executed r)) as [[step o]|] eqn:Hlast.
        + right. exists step, o. split; [done|].
          rewrite Hresp in Hno. cbn [fmap option_fmap option_map snd] in Hno.
          unfold fallback_response in Hno.
          destruct (nonempty_dict o); [by left|by right].
        + left. by apply last_None. }
  simpl in Hexec. subst new. intros Hp Hfill.
  destruct (Hall Hp Hfill) as [Hit Hlen]. split_and!; [lia|done|..].
  all: destruct Hshape as [(before & step & o & Hex & _ & Hreply & _)
                          |[_ Hresp]].
  all: try (rewrite Hex in Hfill;
            apply Forall_app in Hfill as [_ [[Hq _] _]%Forall_cons_1];
            unfold quiet in Hq; simpl in Hq; congruence).
  all: destruct (executed r) as [|so l _] using rev_ind; [done|].
  all: rewrite last_snoc in Hresp;
       apply Forall_app in Hfill as [_ [[Hq Hf] _]%Forall_cons_1];
       unfold quiet, filled in Hq, Hf; rewrite Hresp; simpl.
  all: unfold fallback_response, nonempty_dict; rewrite Hf; simpl; done.
Qed.
End loop_facts.
(** ** More of the planner, the executor and the loop *)

(** Every path of a step: the session is read, then the branches of the step
    are taken one by one. *)
Ltac exec_paths :=
  unfold execute, _parse_and_set_field; mrun;
  repeat first
    [ progress mrun
    | progress cbn [negb fst snd]
    | match goal with
      | |- context [bool_decide (filter ?P ?l = [])] =>
          destruct (filter P l) as [|? ?] eqn:?
      end
    | case_bool_decide
    | match goal with
      | |- context [match search_digits ?lo ?hi ?s with _ => _ end] =>
          destruct (search_digits lo hi s) eqn:?
      | |- context [match parse_confirmation ?t with _ => _ end] =>
          destruct (parse_confirmation t) as [[]|] eqn:?
      | |- context [search_schemes ?q ?w] =>
          destruct (search_schemes q w) as [[|? ?] ?] eqn:?
      | |- context [get_scheme_by_id ?i ?w] =>
          destruct (get_scheme_by_id i w) as [[?|] ?] eqn:?
      | |- context [check_eligibility ?p ?w] =>
          destruct (check_eligibility p w) as [? ?] eqn:?
      | |- context [submit_application ?p ?w] =>
          destruct (submit_application p w) as [? ?] eqn:?
      end ].

Section planner_more.
Context `{Unicode}.

(** X1. [Planner.plan] always yields exactly one step, never a submission
    and never an unknown step, and the step tells the rule that produced
    it: a clarification only below the threshold; a description or a
    confirmation only while the session waits for the confirmation, by
    whether the lower-cased utterance mentions a detail keyword; a fill only
    of the field the session waits for; a question only for a field the
    profile lacks, the age first; the eligibility check only when both are
    there. Every step but the clarification needs a confidence that is not
    below the threshold. *)
Theorem plan_one_step (session : Session) (transcript : str)
    (confidence : float) :
  ∃ step,
    plan session transcript confidence = [step]
    ∧ match step with
      | ClarifyAsr => (confidence <? THRESHOLD)%float = true
      | DescribeScheme query =>
          query = transcript ∧ waiting_for session = Some CONFIRMATION
          ∧ mentions detail_keywords (lower transcript)
      | Confirm =>
          waiting_for session = Some CONFIRMATION
          ∧ ¬ mentions detail_keywords (lower transcript)
      | FillField f =>
          waiting_for session = Some f ∧ f ≠ [] ∧ f ≠ CONFIRMATION
      | AskField f =>
          truthy (waiting_for session) = false
          ∧ profile session !! f = None
          ∧ (f = AGE ∨ f = INCOME ∧ is_Some (profile session !! AGE))
      | CheckEligibility =>
          truthy (waiting_for session) = false
          ∧ is_Some (profile session !! AGE)
          ∧ is_Some (profile session !! INCOME)
      | SubmitApplication | UnknownStep _ => False
      end
    ∧ (step ≠ ClarifyAsr → (confidence <? THRESHOLD)%float = false).
Proof.
  unfold plan. destruct (confidence <? THRESHOLD)%float eqn:Hc.
  { exists ClarifyAsr. by split_and!. }
  destruct (waiting_for session) as [[|ch f]|] eqn:Hw; cbn [truthy nonempty].
  2:{ case_bool_decide as Hconf.
      - destruct (any_in _ _) eqn:Hd.
        + exists (DescribeScheme transcript). split_and!; try done.
          by apply any_in_spec.
        + exists Confirm. split_and!; try done. by apply any_in_false.
      - exists (FillField (ch :: f)). split_and!; try done.
        intros Heq. apply Hconf. by rewrite Heq. }
  all: destruct (profile session !! AGE) as [a|] eqn:Ha;
    [ rewrite filter_cons_False by (by rewrite Ha);
      destruct (profile session !! INCOME) as [i|] eqn:Hi;
      [ rewrite filter_cons_False by (by rewrite Hi);
        exists CheckEligibility
      | rewrite filter_cons_True by done; exists (AskField INCOME) ]
    | rewrite filter_cons_True by done; exists (AskField AGE) ];
    split_and!; eauto.
Qed.
End planner_more.

Lemma nonempty_app_r (a b : str) : nonempty b = true → nonempty (a ++ b) = true.
Proof. by destruct a, b. Qed.

Section executor_more.
Context `{Unicode} {world : Type} `{Collaborators world}.
Implicit Types (st : state world) (session : Session).

(** X2. A step never creates or removes a session and never touches a
    session other than its own, whether the session exists or not and
    whether the step returns or raises. *)
Theorem execute_frame (step : step) (session_id transcript : str) st :
  let st' := state_after (execute step session_id transcript st) in
  dom (sessions st') = dom (sessions st)
  ∧ ∀ other, other ≠ session_id →
      sessions st' !! other = sessions st !! other.
Proof.
  destruct st as [m w c].
  destruct (m !! session_id) as [session|] eqn:Hs.
  - assert (∀ r : result (state world) outcome,
              (∃ s', sessions (state_after r) = <[session_id := s']> m) →
              dom (sessions (state_after r)) = dom m
              ∧ ∀ other, other ≠ session_id →
                  sessions (state_after r) !! other = m !! other) as Hput.
    { intros r [s' ->]. split.
      - by apply dom_insert_lookup_L.
      - intros other Hne. by rewrite lookup_insert_ne. }
    apply Hput.
    destruct step; exec_paths; unfold raise; cbn [state_after sessions];
      eauto; exists session; by rewrite insert_id.
  - unfold execute. rewrite bind_run. unfold get_session. cbn [sessions].
    rewrite Hs. by cbn.
Qed.

(** X3. A step that returns on an existing session leaves the history of
    the session as it was, followed by the reply of its outcome as one
    assistant turn when the outcome carries one: nothing is ever removed,
    and nothing added without being replied. *)
Theorem execute_history (step : step) (session_id transcript : str) st
    session (out : outcome) st' :
  sessions st !! session_id = Some session →
  execute step session_id transcript st = Ok out st' →
  ∃ session',
    sessions st' !! session_id = Some session'
    ∧ history session' =
        history session ++
        match reply out with Some r => [(ASSISTANT, r)] | None => [] end.
Proof.
  intros Hs. destruct st as [m w c]; simpl in Hs.
  destruct step; exec_paths; unfold raise; intros [= <- <-];
    cbn [sessions reply]; rewrite ?app_nil_r;
    first [ eexists; split; [apply lookup_insert_eq|done]
          | by exists session ].
Qed.

(** X4. A step that returns on an existing session leaves its profile as
    it was, unless it is a fill of the age or of the income that ends with
    the status "filled", which sets that one key. *)
Theorem execute_profile (step : step) (session_id transcript : str) st
    session (out : outcome) st' :
  sessions st !! session_id = Some session →
  execute step session_id transcript st = Ok out st' →
  ∃ session',
    sessions st' !! session_id = Some session'
    ∧ (profile session' = profile session
       ∨ ∃ key value,
           step = FillField key ∧ (key = AGE ∨ key = INCOME)
           ∧ status out = Some FILLED
           ∧ profile session' = <[key := value]> (profile session)).
Proof.
  intros Hs. destruct st as [m w c]; simpl in Hs.
  destruct step; exec_paths; unfold raise; intros [= <- <-];
    cbn [sessions status]; subst;
    first [ exists session; split; [done|by left]
          | eexists; split; [apply lookup_insert_eq|]; cbn [profile];
            first [ by left | right; eexists _, _; by eauto 10 ] ].
Qed.

(** X5. A step that returns on an existing session leaves the last
    offers of the session as they were, unless it is the eligibility check,
    which stores the offers of its outcome. *)
Theorem execute_last_eligibility (step : step) (session_id transcript : str)
    st session (out : outcome) st' :
  sessions st !! session_id = Some session →
  execute step session_id transcript st = Ok out st' →
  ∃ session',
    sessions st' !! session_id = Some session'
    ∧ (last_eligibility session' = last_eligibility session
       ∨ step = CheckEligibility ∧ is_Some (eligible out)
         ∧ last_eligibility session' = eligible out).
Proof.
  intros Hs. destruct st as [m w c]; simpl in Hs.
  destruct step; exec_paths; unfold raise; intros [= <- <-];
    cbn [sessions eligible];
    first [ exists session; split; [done|by left]
          | eexists; split; [apply lookup_insert_eq|]; cbn [last_eligibility];
            first [ by left | right; by eauto ] ].
Qed.

(** X6. The calls a step makes to the collaborators on an existing
    session, whether it returns or raises. Clarifying, asking, filling and
    an unknown step call nothing. The eligibility check calls the evaluator
    once and the direct submission the submission once, both on the profile
    of the session. The confirmation submits once, on the profile, exactly
    when the utterance parses as an assent, and calls nothing otherwise.
    The description makes at most two calls, each a search or a document
    lookup. *)
Theorem execute_calls (step : step) (session_id transcript : str) st session :
  sessions st !! session_id = Some session →
  ∃ new,
    calls (state_after (execute step session_id transcript st))
    = calls st ++ new
    ∧ match step with
      | ClarifyAsr | AskField _ | FillField _ | UnknownStep _ => new = []
      | CheckEligibility => new = [CallCheckEligibility (profile session)]
      | SubmitApplication => new = [CallSubmitApplication (profile session)]
      | Confirm =>
          new = if decide (parse_confirmation transcript = Some true)
                then [CallSubmitApplication (profile session)] else []
      | DescribeScheme _ =>
          (length new ≤ 2)%nat
          ∧ ∀ k, k ∈ new →
              (∃ q, k = CallSearchSchemes q) ∨ (∃ i, k = CallGetSchemeById i)
      end.
Proof.
  intros Hs. destruct st as [m w c]; simpl in Hs.
  destruct step; exec_paths; unfold raise; cbn [state_after calls];
    rewrite <- ?app_assoc;
    first [ by exists []; rewrite app_nil_r
          | eexists; split; [reflexivity|]; try done ].
  all: try (split; [simpl; lia|];
            intros k Hk; repeat (apply elem_of_cons in Hk as [->|Hk]; eauto);
            by apply elem_of_nil in Hk).
  all: try by rewrite decide_True.
Qed.

(** X7. A step that returns on an existing session carries a non-empty
    reply, with two exceptions that carry none: a fill with the status
    "filled", after which the session waits for nothing, and an unknown
    step, with the status "unknown_step". *)
Theorem execute_silent (step : step) (session_id transcript : str) st
    session (out : outcome) st' :
  sessions st !! session_id = Some session →
  execute step session_id transcript st = Ok out st' →
  truthy (reply out) = true
  ∨ reply out = None
    ∧ ((∃ f, step = FillField f ∧ status out = Some FILLED
             ∧ waiting_for <$> sessions st' !! session_id = Some None)
       ∨ ∃ name, step = UnknownStep name ∧ status out = Some «"unknown_step"»).
Proof.
  intros Hs. destruct st as [m w c]; simpl in Hs.
  destruct step; exec_paths; unfold raise; intros [= <- <-];
    cbn [sessions status reply];
    first [ by left
          | left; cbn [truthy]; by apply nonempty_app_r
          | right; split; [done|]; left; eexists; split_and!; [done..|];
            by rewrite lookup_insert_eq
          | right; split; [done|]; right; by eauto ].
Qed.
End executor_more.

Section executor_more2.
Context `{Unicode} {world : Type} `{Collaborators world}.
Implicit Types (st : state world) (session : Session).

(** X8. The ask step on an existing session replies with the question
    for the age or for the income, makes the session wait for that field,
    and records the question. For any other field it replies that the
    answer is not known and leaves what the session waits for as it was. In
    all three cases the status is "ask", and no collaborator is called. *)
Theorem execute_ask_field (field session_id transcript : str) st session :
  sessions st !! session_id = Some session →
  let after waiting reply :=
    State (<[session_id :=
               {| profile := profile session; waiting_for := waiting;
                  last_eligibility := last_eligibility session;
                  history := history session ++ [(ASSISTANT, reply)] |}]>
             (sessions st)) (env st) (calls st) in
  let asked reply :=
    {| status := Some «"ask"»; reply := Some reply; eligible := None;
       application_id := None; field := None; error := None |} in
  (field = AGE →
   let reply := «"దయచేసి మీ వయస్సును చెప్పండి."» in
   execute (AskField field) session_id transcript st
   = Ok (asked reply) (after (Some AGE) reply))
  ∧ (field = INCOME →
     let reply := «"దయచేసి మీ వార్షిక ఆదాయాన్ని (ఒక సంఖ్యలో) చెప్పండి."» in
     execute (AskField field) session_id transcript st
     = Ok (asked reply) (after (Some INCOME) reply))
  ∧ (field ≠ AGE → field ≠ INCOME →
     let reply := «"సమాధానం తెలియదు."» in
     execute (AskField field) session_id transcript st
     = Ok (asked reply) (after (waiting_for session) reply)).
Proof.
  intros Hs after asked. destruct st as [m w c]; simpl in Hs.
  subst after asked. cbn [sessions env calls].
  split_and!; intros; exec_paths; first [by simplify_eq|reflexivity].
Qed.

(** X9. The direct submission step on an existing session submits the
    profile once, clears what the session waits for, and replies in English
    with the identifier the submission returned; unlike the confirmation,
    its outcome does not carry the identifier as [application_id]. *)
Theorem execute_submit_application (session_id transcript : str) st session
    (app_id : str) (w : world) :
  sessions st !! session_id = Some session →
  submit_application (profile session) (env st) = (app_id, w) →
  let reply := «"Your application has been submitted. ID: "» ++ app_id in
  execute SubmitApplication session_id transcript st =
    Ok {| status := Some «"submitted"»; reply := Some reply;
          eligible := None; application_id := None; field := None;
          error := None |}
       (State (<[session_id :=
                   {| profile := profile session; waiting_for := None;
                      last_eligibility := last_eligibility session;
                      history := history session ++ [(ASSISTANT, reply)] |}]>
                 (sessions st)) w
              (calls st ++ [CallSubmitApplication (profile session)])).
Proof.
  intros Hs Hsub. destruct st as [m w0 c]; simpl in *.
  unfold execute. mrun. rewrite Hsub. reflexivity.
Qed.
End executor_more2.

Section rounds.
Context {world : Type}.
Implicit Types (a : Agent world) (st : state world) (session : Session).

Lemma process_input_run_enter a (session_id transcript : str)
    (confidence : float) session (m : gmap str Session) (w : world)
    (c : list call) :
  m !! session_id = Some session →
  process_input_run a session_id transcript confidence (State m w c)
  = loop 5 a session_id transcript confidence session None 0 []
      (State (<[session_id :=
                  {| profile := profile session;
                     waiting_for := waiting_for session;
                     last_eligibility := last_eligibility session;
                     history := history session ++ [(USER, transcript)] |}]> m)
             w c).
Proof. intros Hs. unfold process_input_run. by mrun. Qed.

Lemma process_input_of_run a (session_id transcript : str)
    (confidence : float) st :
  process_input a session_id transcript confidence st
  = match process_input_run a session_id transcript confidence st with
    | Ok r st' => Ok (response r) st'
    | Raise e st' => Raise e st'
    end.
Proof. reflexivity. Qed.

(** A round whose step replies ends the call. *)
Lemma loop_round_reply (n : nat) a (session_id transcript : str)
    (confidence : float) session resp (iters : nat) log st step o st1 :
  planner a (default session (sessions st !! session_id)) transcript confidence
  = [step] →
  executor a step session_id transcript st = Ok o st1 →
  truthy (reply o) = true →
  loop (S n) a session_id transcript confidence session resp iters log st
  = Ok (Run (reply_response (evaluator a o) o) (S iters) (log ++ [(step, o)]))
       st1.
Proof.
  intros Hplan Hexec Hreply. cbn [loop]. rewrite bind_run.
  unfold deref at 1. cbv beta iota. rewrite Hplan, bind_run.
  cbn [run_plan]. rewrite bind_run, Hexec, Hreply. reflexivity.
Qed.

(** A round whose step fills in silence hands over to the next round, with
    the session read again. *)
Lemma loop_round_filled (n : nat) a (session_id transcript : str)
    (confidence : float) session resp (iters : nat) log st step o st1 :
  planner a (default session (sessions st !! session_id)) transcript confidence
  = [step] →
  executor a step session_id transcript st = Ok o st1 →
  truthy (reply o) = false →
  status (evaluator a o) = Some FILLED →
  loop (S n) a session_id transcript confidence session resp iters log st
  = loop n a session_id transcript confidence
      (default (default session (sessions st !! session_id))
               (sessions st1 !! session_id))
      (Some (evaluator a o)) (S iters) (log ++ [(step, o)]) st1.
Proof.
  intros Hplan Hexec Hreply Hfilled. cbn [loop]. rewrite bind_run.
  unfold deref at 1. cbv beta iota. rewrite Hplan, bind_run.
  cbn [run_plan]. rewrite bind_run, Hexec, Hreply.
  rewrite bool_decide_eq_true_2 by done. rewrite bind_run.
  unfold deref at 1. cbv beta iota. rewrite ret_run. cbv beta iota.
  reflexivity.
Qed.
End rounds.

Section planner_steps.
Context `{Unicode}.

Lemma plan_not_waiting (session : Session) (transcript : str)
    (confidence : float) :
  (confidence <? THRESHOLD)%float = false →
  truthy (waiting_for session) = false →
  plan session transcript confidence =
    match filter (λ f, profile session !! f = None) [AGE; INCOME] with
    | f :: _ => [AskField f]
    | [] => [CheckEligibility]
    end.
Proof. unfold plan. by intros -> ->. Qed.

Lemma plan_waiting_field (session : Session) (transcript f : str)
    (confidence : float) :
  (confidence <? THRESHOLD)%float = false →
  waiting_for session = Some f → f ≠ [] → f ≠ CONFIRMATION →
  plan session transcript confidence = [FillField f].
Proof.
  unfold plan. intros -> -> Hne Hconf. destruct f; [done|].
  cbn [truthy nonempty]. by rewrite bool_decide_eq_false_2 by congruence.
Qed.
End planner_steps.

Section agent_more.
Context `{Unicode} {world : Type} `{Collaborators world}.
Implicit Types (st : state world) (session : Session).

(** X11. A call on an existing session with a confidence below the
    threshold answers with the status "clarify" and the request to record
    again, whatever the session waits for and whatever was said. The session
    then waits for nothing, the utterance and the request are recorded,
    and no collaborator is called. *)
Theorem process_input_low_confidence (session_id transcript : str)
    (confidence : float) st session :
  sessions st !! session_id = Some session →
  (confidence <? THRESHOLD)%float = true →
  let reply :=
    «"క్షమించండి, నేను స్పష్టంగా వినలేకపోయాను. దయచేసి మళ్లీ రికార్డ్ చేయండి."» in
  process_input agent session_id transcript confidence st =
    Ok {| status := Some «"clarify"»; reply := Some reply; eligible := None;
          application_id := None; field := None; error := None |}
       (State (<[session_id :=
                   {| profile := profile session; waiting_for := None;
                      last_eligibility := last_eligibility session;
                      history := history session ++
                                 [(USER, transcript); (ASSISTANT, reply)] |}]>
                 (sessions st)) (env st) (calls st)).
Proof.
  intros Hs Hlow reply. destruct st as [m w c]; simpl in Hs.
  rewrite process_input_of_run.
  erewrite process_input_run_enter by done.
  erewrite loop_round_reply; cycle 1.
  { cbn [planner agent]. unfold plan. by rewrite Hlow. }
  { cbn [executor agent]. unfold execute. mrun. reflexivity. }
  { reflexivity. }
  cbn [response profile waiting_for last_eligibility history].
  rewrite <- app_assoc. reflexivity.
Qed.

(** X12. A call on an existing session that waits for nothing, with a
    confidence at or above the threshold: when the profile has no age the
    answer is the question for the age, and when it has an age but no income
    the question for the income, whatever was said. The session then waits
    for that field, the utterance and the question are recorded, and no
    collaborator is called. *)
Theorem process_input_asks_missing (session_id transcript : str)
    (confidence : float) st session :
  sessions st !! session_id = Some session →
  (THRESHOLD <=? confidence)%float = true →
  truthy (waiting_for session) = false →
  let asked field reply :=
    Ok {| status := Some «"ask"»; reply := Some reply; eligible := None;
          application_id := None; field := None; error := None |}
       (State (<[session_id :=
                   {| profile := profile session; waiting_for := Some field;
                      last_eligibility := last_eligibility session;
                      history := history session ++
                                 [(USER, transcript); (ASSISTANT, reply)] |}]>
                 (sessions st)) (env st) (calls st)) in
  (profile session !! AGE = None →
   process_input agent session_id transcript confidence st
   = asked AGE «"దయచేసి మీ వయస్సును చెప్పండి."»)
  ∧ (is_Some (profile session !! AGE) → profile session !! INCOME = None →
     process_input agent session_id transcript confidence st
     = asked INCOME «"దయచేసి మీ వార్షిక ఆదాయాన్ని (ఒక సంఖ్యలో) చెప్పండి."»).
Proof.
  intros Hs Hhigh%not_below_threshold Hwait asked.
  destruct st as [m w c]; simpl in Hs. subst asked. cbn [sessions env calls].
  split.
  - intros Hage. rewrite process_input_of_run.
    erewrite process_input_run_enter by done.
    erewrite loop_round_reply; cycle 1.
    { cbn [planner agent sessions]. rewrite lookup_insert_eq. unfold default, from_option, id.
      rewrite plan_not_waiting by done. cbn [profile].
      by rewrite filter_cons_True. }
    { cbn [executor agent]. unfold execute. mrun.
      rewrite bool_decide_eq_true_2 by done. mrun. reflexivity. }
    { reflexivity. }
    cbn [response profile waiting_for last_eligibility history].
    rewrite <- app_assoc. reflexivity.
  - intros [a Hage] Hincome. rewrite process_input_of_run.
    erewrite process_input_run_enter by done.
    erewrite loop_round_reply; cycle 1.
    { cbn [planner agent sessions]. rewrite lookup_insert_eq. unfold default, from_option, id.
      rewrite plan_not_waiting by done. cbn [profile].
      rewrite filter_cons_False by (cbv beta; by rewrite Hage).
      by rewrite filter_cons_True. }
    { cbn [executor agent]. unfold execute. mrun.
      rewrite bool_decide_eq_false_2 by done.
      rewrite bool_decide_eq_true_2 by done. mrun. reflexivity. }
    { reflexivity. }
    cbn [response profile waiting_for last_eligibility history].
    rewrite <- app_assoc. reflexivity.
Qed.

(** After a fill the same call goes on with the step planned for the
    session as filled, and answers with the outcome of that step. *)
Lemma process_input_after_fill (session_id transcript f : str)
    (confidence : float) (m : gmap str Session) (w : world) (c : list call)
    session (value : Z) step o st2 :
  m !! session_id = Some session →
  (confidence <? THRESHOLD)%float = false →
  waiting_for session = Some f → f ≠ [] → f ≠ CONFIRMATION →
  let filled_session :=
    {| profile := <[f := value]> (profile session); waiting_for := None;
       last_eligibility := last_eligibility session;
       history := history session ++ [(USER, transcript)] |} in
  execute (FillField f) session_id transcript
    (State (<[session_id := heard session transcript]> m) w c)
  = Ok (filled_outcome f) (State (<[session_id := filled_session]> m) w c) →
  plan filled_session transcript confidence = [step] →
  execute step session_id transcript
    (State (<[session_id := filled_session]> m) w c) = Ok o st2 →
  truthy (reply o) = true →
  process_input_run agent session_id transcript confidence (State m w c)
  = Ok (Run (reply_response o o) 2
            [(FillField f, filled_outcome f); (step, o)]) st2.
Proof.
  intros Hs Hhigh Hwait Hne Hconf filled_session Hfill Hplan Hexec Hreply.
  erewrite process_input_run_enter by done. fold (heard session transcript).
  erewrite loop_round_filled; cycle 1.
  { cbn [planner agent sessions]. rewrite lookup_insert_eq. unfold default, from_option, id.
    by apply plan_waiting_field. }
  { exact Hfill. }
  { reflexivity. }
  { reflexivity. }
  cbn [sessions]. rewrite !lookup_insert_eq. unfold default, from_option, id.
  erewrite loop_round_reply; cycle 1.
  { cbn [planner agent sessions]. rewrite lookup_insert_eq. exact Hplan. }
  { exact Hexec. }
  { exact Hreply. }
  reflexivity.
Qed.

(** X13. A call on a session that waits for the age, with a confidence
    at or above the threshold and an utterance whose first run of decimal
    characters is [run], while the profile has no income: in one call the
    age is set to the number the first three characters of [run] spell, and
    the answer is the question for the income, which the session then waits
    for. No collaborator is called. *)
Theorem process_input_fills_age_then_asks_income
    (session_id transcript run : str) (confidence : float) st session :
  sessions st !! session_id = Some session →
  (THRESHOLD <=? confidence)%float = true →
  waiting_for session = Some AGE →
  first_run 1 transcript run →
  profile session !! INCOME = None →
  let reply := «"దయచేసి మీ వార్షిక ఆదాయాన్ని (ఒక సంఖ్యలో) చెప్పండి."» in
  process_input agent session_id transcript confidence st =
    Ok {| status := Some «"ask"»; reply := Some reply; eligible := None;
          application_id := None; field := None; error := None |}
       (State (<[session_id :=
                   {| profile := <[AGE := int (take 3 run)]> (profile session);
                      waiting_for := Some INCOME;
                      last_eligibility := last_eligibility session;
                      history := history session ++
                                 [(USER, transcript); (ASSISTANT, reply)] |}]>
                 (sessions st)) (env st) (calls st)).
Proof.
  intros Hs Hhigh%not_below_threshold Hwait Hrun Hincome reply.
  destruct st as [m w c]; simpl in Hs. cbn [sessions env calls].
  rewrite process_input_of_run.
  erewrite (process_input_after_fill _ _ AGE) ; try done; cycle 1.
  { rewrite (execute_fill_age_found _ _ run _ (heard session transcript));
      [|apply lookup_insert_eq|done].
    unfold filled_state. cbn [sessions env calls heard profile
      last_eligibility history]. by rewrite insert_insert_eq. }
  { rewrite plan_not_waiting by done. cbn [profile].
    rewrite filter_cons_False by (cbv beta; by rewrite lookup_insert_eq).
    rewrite filter_cons_True; [done|].
    cbv beta. by rewrite lookup_insert_ne. }
  { unfold execute. mrun. rewrite bool_decide_eq_false_2 by done.
    rewrite bool_decide_eq_true_2 by done. mrun. reflexivity. }
  { reflexivity. }
  cbn [response profile waiting_for last_eligibility history].
  rewrite <- app_assoc. reflexivity.
Qed.

(** X14. A call on a session that waits for the income and has an age,
    with a confidence at or above the threshold and an utterance that,
    without its commas, has [run] as its first run of at least three decimal
    characters: in one call the income is set to the number [run] spells and
    the eligibility is checked, once, on the profile with that income. The
    answer has the status "eligible_check" and carries the offers, which the
    session keeps; the session waits for the confirmation when there is an
    offer and for nothing otherwise. *)
Theorem process_input_fills_income_then_checks
    (session_id transcript run : str) (confidence : float) st session
    (offers : list Scheme) (w : world) :
  sessions st !! session_id = Some session →
  (THRESHOLD <=? confidence)%float = true →
  waiting_for session = Some INCOME →
  first_run 3 (filter (λ c, c ≠ COMMA) transcript) run →
  is_Some (profile session !! AGE) →
  let completed := <[INCOME := int run]> (profile session) in
  check_eligibility completed (env st) = (offers, w) →
  ∃ out text,
    process_input agent session_id transcript confidence st =
      Ok out
         (State (<[session_id :=
                     {| profile := completed;
                        waiting_for :=
                          if decide (offers = []) then None
                          else Some CONFIRMATION;
                        last_eligibility := Some offers;
                        history := history session ++
                                   [(USER, transcript); (ASSISTANT, text)] |}]>
                   (sessions st)) w
                (calls st ++ [CallCheckEligibility completed]))
    ∧ status out = Some «"eligible_check"»
    ∧ reply out = Some text
    ∧ eligible out = Some offers.
Proof.
  intros Hs Hhigh%not_below_threshold Hwait Hrun [a Hage] completed Hcheck.
  subst completed.
  destruct st as [m w0 c]; simpl in Hs, Hcheck. cbn [sessions env calls].
  rewrite process_input_of_run.
  assert (plan {| profile := <[INCOME := int run]> (profile session); waiting_for := None;
                  last_eligibility := last_eligibility session;
                  history := history session ++ [(USER, transcript)] |}
            transcript confidence = [CheckEligibility]) as Hplan.
  { rewrite plan_not_waiting by done. cbn [profile].
    rewrite filter_cons_False
      by (cbv beta; by rewrite lookup_insert_ne, Hage).
    by rewrite filter_cons_False by (cbv beta; by rewrite lookup_insert_eq). }
  assert (execute (FillField INCOME) session_id transcript
            (State (<[session_id := heard session transcript]> m) w0 c)
          = Ok (filled_outcome INCOME)
               (State (<[session_id :=
                           {| profile := <[INCOME := int run]> (profile session); waiting_for := None;
                              last_eligibility := last_eligibility session;
                              history := history session ++
                                         [(USER, transcript)] |}]> m) w0 c))
    as Hfill.
  { rewrite (execute_fill_income_found _ _ run _ (heard session transcript));
      [|apply lookup_insert_eq|done].
    unfold filled_state. cbn [sessions env calls heard profile
      last_eligibility history]. by rewrite insert_insert_eq. }
  destruct (decide (offers = [])) as [->|Hne].
  - eexists _, _.
    erewrite (process_input_after_fill _ _ INCOME); try done; cycle 1.
    { unfold execute. mrun. cbn [profile]. rewrite Hcheck. cbn [fst snd].
      rewrite bool_decide_eq_false_2 by (by intros []). mrun. reflexivity. }
    { reflexivity. }
    cbn [response profile waiting_for last_eligibility history reply_response
         status reply eligible].
    rewrite <- app_assoc. by split_and!.
  - eexists _, _.
    erewrite (process_input_after_fill _ _ INCOME); try done; cycle 1.
    { unfold execute. mrun. cbn [profile]. rewrite Hcheck. cbn [fst snd].
      rewrite bool_decide_eq_true_2 by done. mrun. reflexivity. }
    { reflexivity. }
    cbn [response profile waiting_for last_eligibility history reply_response
         status reply eligible].
    rewrite <- app_assoc. by split_and!.
Qed.

(** What the planner can plan. *)
Lemma plan_shape (session : Session) (transcript : str) (confidence : float) :
  ∃ step,
    plan session transcript confidence = [step]
    ∧ step ≠ SubmitApplication ∧ (∀ name, step ≠ UnknownStep name)
    ∧ ((confidence <? THRESHOLD)%float = false →
       truthy (waiting_for session) = false →
       ∀ f, step ≠ FillField f)
    ∧ ((∃ f, step = FillField f) → (confidence <? THRESHOLD)%float = false).
Proof.
  unfold plan. destruct (confidence <? THRESHOLD)%float.
  { exists ClarifyAsr. split_and!; try done. by intros [? ?]. }
  destruct (truthy (waiting_for session)).
  - case_bool_decide; [destruct (any_in _ _)|]; eexists; by split_and!.
  - destruct (filter _ _); eexists; by split_and!.
Qed.

(** What a step leaves, when the schemes it can look up have a document. *)
Lemma execute_summary (step : step) (session_id transcript : str) session
    (m : gmap str Session) (w : world) (c : list call) :
  documented (default [] (last_eligibility session)) →
  (∀ query w, documented (search_schemes query w).1) →
  m !! session_id = Some session →
  ∃ o session' w' c',
    execute step session_id transcript (State m w c)
    = Ok o (State (<[session_id := session']> m) w' c')
    ∧ ((∃ text, reply o = Some text ∧ nonempty text = true
                ∧ history session' = history session ++ [(ASSISTANT, text)])
       ∨ reply o = None ∧ history session' = history session
         ∧ ((∃ f, step = FillField f) ∧ status o = Some FILLED
            ∧ waiting_for session' = None
            ∧ last_eligibility session' = last_eligibility session
            ∨ ∃ name, step = UnknownStep name)).
Proof.
  intros Hoffers Hsearch Hs.
  destruct step; exec_paths; unfold raise;
    try (exfalso;
         match goal with
         | Hq : get_scheme_by_id (scheme_id ?f) ?w0 = (None, _) |- _ =>
             first
               [ match goal with
                 | Hf : filter _ _ = f :: _ |- _ =>
                     destruct (Hoffers f w0) as [? Hd];
                     [eapply (proj1 (list_elem_of_filter _ _ _));
                      rewrite Hf; left|]
                 end
               | match goal with
                 | Hf : search_schemes ?q ?w1 = (f :: _, _) |- _ =>
                     destruct (Hsearch q w1 f w0) as [? Hd];
                     [rewrite Hf; left|]
                 end ];
             rewrite Hq in Hd; discriminate Hd
         end);
    first [ eexists _, _, _, _; split; [reflexivity|];
            cbn [reply history waiting_for status];
            first [ left; eexists; split_and!;
                    [reflexivity|by (reflexivity || apply nonempty_app_r)|done]
                  | right; split_and!; [done|done|]; left;
                    split_and!; by eauto ]
          | eexists _, session, _, _; rewrite insert_id by done;
            split; [reflexivity|]; right; split_and!; [done|done|];
            right; by eauto ].
Qed.

(** With documents for the schemes it can look up, the agent answers in at
    most two rounds. *)
Lemma process_input_run_replies (session_id transcript : str)
    (confidence : float) st session :
  documented (default [] (last_eligibility session)) →
  (∀ query w, documented (search_schemes query w).1) →
  sessions st !! session_id = Some session →
  ∃ r st' text session',
    process_input_run agent session_id transcript confidence st = Ok r st'
    ∧ (iterations r ≤ 2)%nat
    ∧ length (executed r) = iterations r
    ∧ reply (response r) = Some text ∧ text ≠ []
    ∧ sessions st' = <[session_id := session']> (sessions st)
    ∧ history session'
      = history session ++ [(USER, transcript); (ASSISTANT, text)].
Proof.
  intros Hoffers Hsearch Hs. destruct st as [m w c]; simpl in Hs.
  erewrite process_input_run_enter by done.
  set (s0 := {| profile := profile session |}).
  destruct (plan_shape s0 transcript confidence)
    as (step1 & Hplan1 & Hsub1 & Hunk1 & _ & Hfill1).
  destruct (execute_summary step1 session_id transcript s0
              (<[session_id := s0]> m) w c Hoffers Hsearch
              (lookup_insert_eq _ _ _))
    as (o1 & s1 & w1 & c1 & Hexec1 & Hout1).
  rewrite insert_insert_eq in Hexec1.
  destruct Hout1 as [(text & Hreply & Hne & Hhist)
                    |(Hreply & Hhist
                      & [([f ->] & Hfilled & Hwait & Hlast)|[n ->]])].
  - erewrite loop_round_reply; cycle 1.
    { cbn [planner agent sessions]. rewrite lookup_insert_eq. exact Hplan1. }
    { exact Hexec1. }
    { by rewrite Hreply. }
    eexists _, _, text, s1. split; [reflexivity|].
    cbn [iterations executed response sessions reply_response reply].
    rewrite Hhist. subst s0. cbn [history].
    split_and!;
      first [done | lia | by destruct text | by rewrite <- app_assoc].
  - erewrite loop_round_filled; cycle 1.
    { cbn [planner agent sessions]. rewrite lookup_insert_eq. exact Hplan1. }
    { exact Hexec1. }
    { by rewrite Hreply. }
    { exact Hfilled. }
    cbn [sessions]. rewrite !lookup_insert_eq. unfold default, from_option, id.
    destruct (plan_shape s1 transcript confidence)
      as (step2 & Hplan2 & Hsub2 & Hunk2 & Hnofill & _).
    destruct (execute_summary step2 session_id transcript s1
                (<[session_id := s1]> m) w1 c1
                ltac:(by rewrite Hlast) Hsearch (lookup_insert_eq _ _ _))
      as (o2 & s2 & w2 & c2 & Hexec2 & Hout2).
    rewrite insert_insert_eq in Hexec2.
    destruct Hout2 as [(text & Hreply2 & Hne & Hhist2)
                      |(_ & _ & [([f' ->] & _)|[n ->]])].
    + erewrite loop_round_reply; cycle 1.
      { cbn [planner agent sessions]. rewrite lookup_insert_eq. exact Hplan2. }
      { exact Hexec2. }
      { by rewrite Hreply2. }
      eexists _, _, text, s2. split; [reflexivity|].
      cbn [iterations executed response sessions reply_response reply].
      rewrite Hhist2, Hhist. subst s0. cbn [history].
      split_and!;
        first [done | lia | by destruct text | by rewrite <- app_assoc].
    + destruct (Hnofill (Hfill1 (ex_intro _ f eq_refl))
                  ltac:(by rewrite Hwait) f'). done.
    + by destruct (Hunk2 n).
  - by destruct (Hunk1 n).
Qed.

(** X15. When every offered scheme and every scheme a search returns has
    a document, a call of the agent on an existing session always returns,
    after at most two rounds of one step each, with a non-empty reply, and
    the history of the session grows by exactly the utterance and that
    reply. The fallback at the end of [process_input] is never reached by
    the planner and the executor of the source. *)
Theorem agent_always_replies (session_id transcript : str)
    (confidence : float) st session :
  documented (default [] (last_eligibility session)) →
  (∀ query w, documented (search_schemes query w).1) →
  sessions st !! session_id = Some session →
  ∃ r st' text,
    process_input_run agent session_id transcript confidence st = Ok r st'
    ∧ (iterations r ≤ 2)%nat
    ∧ length (executed r) = iterations r
    ∧ reply (response r) = Some text ∧ text ≠ []
    ∧ history <$> sessions st' !! session_id
      = Some (history session ++ [(USER, transcript); (ASSISTANT, text)]).
Proof.
  intros Hoffers Hsearch Hs.
  destruct (process_input_run_replies session_id transcript confidence st
              session Hoffers Hsearch Hs)
    as (r & st' & text & session' & Hrun & Hiter & Hlen & Hreply & Hne
        & Hframe & Hhist).
  exists r, st', text. rewrite Hframe, lookup_insert_eq, <- Hhist.
  by split_and!.
Qed.
End agent_more.

Section loop_more.
Context {world : Type}.

(** X16. With a planner that plans nothing for the session as heard, a
    call on an existing session runs no step and makes the fallback answer
    from no response at all: the status "no_action" and the empty reply.
    Only the utterance is recorded. *)
Theorem process_input_nothing_planned
    (p : Session → str → float → list step)
    (e : step → str → str → M (state world) outcome)
    (session_id transcript : str) (confidence : float)
    (st : state world) (session : Session) :
  sessions st !! session_id = Some session →
  p (heard session transcript) transcript confidence = [] →
  process_input {| planner := p; executor := e; evaluator := evaluate |}
    session_id transcript confidence st
  = Ok {| status := Some NO_ACTION; reply := Some []; eligible := None;
          application_id := None; field := None; error := None |}
       (State (<[session_id := heard session transcript]> (sessions st))
              (env st) (calls st)).
Proof.
  intros Hs Hplan. destruct st as [m w c]; simpl in Hs.
  rewrite process_input_of_run. erewrite process_input_run_enter by done.
  fold (heard session transcript). cbn [loop]. rewrite bind_run.
  unfold deref at 1. cbv beta iota. cbn [sessions planner].
  rewrite lookup_insert_eq. unfold default, from_option, id.
  rewrite Hplan. reflexivity.
Qed.
End loop_more.

Section bounds.
Context `{Unicode} {world : Type} `{Collaborators world}.
Implicit Types (st : state world) (session : Session).

Lemma int_bounds (ds : str) :
  decimal_values → Forall digit ds → (0 ≤ int ds < 10 ^ Z.of_nat (length ds))%Z.
Proof.
  intros Hval Hds. unfold int.
  enough (∀ acc, (0 ≤ acc)%Z →
            (0 ≤ fold_left (λ acc c, 10 * acc + todecimal c) ds acc
             < (acc + 1) * 10 ^ Z.of_nat (length ds))%Z) as Hgen.
  { specialize (Hgen 0%Z). lia. }
  induction Hds as [|c ds Hc _ IH]; intros acc Hacc.
  - simpl. lia.
  - cbn [fold_left length]. specialize (Hval c Hc).
    assert (0 ≤ 10 * acc + todecimal c)%Z as Hnext.
    { lia. }
    specialize (IH _ Hnext).
    rewrite Nat2Z.inj_succ, Z.pow_succ_r by lia.
    split; [lia|]. eapply Z.lt_le_trans; [apply IH|].
    assert (0 < 10 ^ Z.of_nat (length ds))%Z by (apply Z.pow_pos_nonneg; lia).
    nia.
Qed.

Lemma search_digits_digits (lo : nat) (hi : option nat) (s m : str) :
  match hi with Some n => (lo ≤ n)%nat | None => True end →
  search_digits lo hi s = Some m →
  Forall digit m
  ∧ match hi with Some n => (length m ≤ n)%nat | None => True end.
Proof.
  intros Hhi (run & (pre & post & _ & Hrun & _) & ->)%search_digits_Some;
    [|done].
  destruct hi as [n|]; cbn [capped]; [|done].
  split; [by apply Forall_take|]. rewrite length_take. lia.
Qed.

(** X10. When the decimal characters have the values 0 to 9, a fill that
    ends with the status "filled" stored a number that is not negative, and
    an age of at most 999: no sign is ever read, and the age is cut at three
    digits. *)
Theorem execute_fill_bounds (session_id transcript field : str) st session
    (out : outcome) st' :
  decimal_values →
  sessions st !! session_id = Some session →
  execute (FillField field) session_id transcript st = Ok out st' →
  status out = Some FILLED →
  ∃ session' value,
    sessions st' !! session_id = Some session'
    ∧ profile session' = <[field := value]> (profile session)
    ∧ (0 ≤ value)%Z
    ∧ (field = AGE → (value ≤ 999)%Z).
Proof.
  intros Hval Hs. destruct st as [m w c]; simpl in Hs.
  exec_paths; intros [= <- <-]; try discriminate; intros _;
    cbn [sessions]; rewrite lookup_insert_eq; subst.
  - match goal with
    | Hd : search_digits _ _ _ = Some ?d |- _ =>
        apply search_digits_digits in Hd as [Hd Hlen]; [|simpl; lia];
        pose proof (int_bounds d Hval Hd) as Hb
    end.
    eexists _, _. split_and!; [done|done|lia|]. intros _.
    match type of Hlen with
    | (length ?d ≤ _)%nat =>
        assert (10 ^ Z.of_nat (length d) ≤ 10 ^ 3)%Z
          by (apply Z.pow_le_mono_r; lia)
    end.
    lia.
  - match goal with
    | Hd : search_digits _ _ _ = Some ?d |- _ =>
        apply search_digits_digits in Hd as [Hd _]; [|done];
        pose proof (int_bounds d Hval Hd) as Hb
    end.
    eexists _, _. split_and!; [done|done|lia|]. intros Heq. discriminate Heq.
Qed.
End bounds.

(** ** The recognition side *)

(** The order of the floats, as far as the clamp needs it. *)
Lemma float_ltb_leb (x y : float) :
  (x <? y)%float = true → (x <=? y)%float = true.
Proof.
  rewrite ltb_spec, leb_spec. unfold SFltb, SFleb.
  by destruct (SFcompare _ _) as [[]|].
Qed.

Lemma float_ltb_false_leb (x y : float) :
  (x <? y)%float = false → (x =? x)%float = true → (y =? y)%float = true →
  (y <=? x)%float = true.
Proof.
  rewrite ltb_spec, leb_spec, !FloatAxioms.eqb_spec. unfold SFltb, SFleb, SFeqb.
  rewrite (SFcompare_antisym (Prim2SF y)).
  destruct (Prim2SF x) as [[]|[]| |[] ? ?], (Prim2SF y) as [[]|[]| |[] ? ?];
    cbn; try congruence;
    destruct (_ ?= _)%Z; cbn; try congruence;
    destruct (Pos.compare_cont _ _ _); cbn; congruence.
Qed.

Lemma float_nan_ltb (x y : float) :
  (x =? x)%float = false → (x <? y)%float = false ∧ (y <? x)%float = false.
Proof.
  rewrite !ltb_spec, FloatAxioms.eqb_spec. unfold SFltb, SFeqb.
  destruct (Prim2SF x) as [[]|[]| |[] m e]; cbn; try congruence.
  - by destruct (Prim2SF y) as [[]|[]| |[] ? ?].
  - rewrite Z.compare_refl. change (Pos.compare_cont Eq m m) with (m ?= m)%positive.
    rewrite Pos.compare_refl. cbn. congruence.
  - rewrite Z.compare_refl. change (Pos.compare_cont Eq m m) with (m ?= m)%positive.
    rewrite Pos.compare_refl. cbn. congruence.
Qed.

(** The clamp lands between 0 and 1, whatever it is given. *)
Lemma clamp_range (conf : float) :
  (0 <=? Asr.py_max 0 (Asr.py_min 1 conf))%float = true
  ∧ (Asr.py_max 0 (Asr.py_min 1 conf) <=? 1)%float = true.
Proof.
  unfold Asr.py_max, Asr.py_min.
  destruct (conf <? 1)%float eqn:Hhi.
  - destruct (0 <? conf)%float eqn:Hlo.
    + split; by apply float_ltb_leb.
    + by split.
  - by split.
Qed.

Section asr_facts.
Variable mean : list float → float.

(** X17. Whatever Whisper returns and however the mean is computed, the
    confidence is a number between 0 and 1: it compares at or above 0 and
    at or below 1, so it is never a NaN and never infinite. *)
Theorem compute_confidence_range (result : option Asr.Recognition) :
  (0 <=? Asr._compute_confidence mean result)%float = true
  ∧ (Asr._compute_confidence mean result <=? 1)%float = true.
Proof.
  unfold Asr._compute_confidence.
  destruct (match result with Some _ => _ | None => _ end); [by split|].
  destruct (omap _ _); [by split|].
  apply clamp_range.
Qed.
End asr_facts.

Ltac sf_compare :=
  repeat match goal with
         | |- context [(?a ?= ?b)%Z] => destruct (Z.compare_spec a b)
         | |- context [Pos.compare_cont Eq ?a ?b] =>
             change (Pos.compare_cont Eq a b) with (a ?= b)%positive;
             destruct (Pos.compare_spec a b)
         end;
  cbn; try congruence; try lia.

Lemma float_leb_ltb_trans (x y z : float) :
  (x <=? y)%float = true → (y <? z)%float = true → (x <? z)%float = true.
Proof.
  rewrite leb_spec, !ltb_spec. unfold SFleb, SFltb.
  destruct (Prim2SF x) as [[]|[]| |[] mx ex], (Prim2SF y) as [[]|[]| |[] my ey],
    (Prim2SF z) as [[]|[]| |[] mz ez]; cbn; try congruence; sf_compare.
Qed.

Lemma float_leb_ltb_false (x y z : float) :
  (x <=? y)%float = true → (y <=? z)%float = true → (z <? x)%float = false.
Proof.
  rewrite !leb_spec, ltb_spec. unfold SFleb, SFltb.
  destruct (Prim2SF x) as [[]|[]| |[] mx ex], (Prim2SF y) as [[]|[]| |[] my ey],
    (Prim2SF z) as [[]|[]| |[] mz ez]; cbn; try congruence; sf_compare.
Qed.

Section asr_facts2.
Variable mean : list float → float.

(** X18. The confidence is the clamp of one plus the mean log-probability
    of the segments that carry one: that number itself when it lies
    strictly between 0 and 1, 0 when it is at or below 0, 1 when it is at or
    above 1, and also 1 when it is a NaN, which the clamp does not
    propagate. *)
Theorem compute_confidence_clamp (result : Asr.Recognition)
    (segments : list Asr.Segment) :
  Asr.rec_segments result = Some segments →
  omap Asr.avg_logprob segments ≠ [] →
  let conf := (1 + mean (omap Asr.avg_logprob segments))%float in
  let confidence := Asr._compute_confidence mean (Some result) in
  ((0 <? conf)%float = true → (conf <? 1)%float = true → confidence = conf)
  ∧ ((conf <=? 0)%float = true → confidence = 0%float)
  ∧ ((1 <=? conf)%float = true → confidence = 1%float)
  ∧ ((conf =? conf)%float = false → confidence = 1%float).
Proof.
  intros Hseg Hvals conf confidence. subst confidence.
  unfold Asr._compute_confidence. rewrite Hseg. cbn [default from_option id].
  destruct segments as [|s segments]; [done|].
  destruct (omap _ (s :: segments)) eqn:Hv; [done|]. clear Hv Hvals.
  fold conf. clearbody conf. unfold Asr.py_max, Asr.py_min.
  split_and!.
  - intros Hlo Hhi. by rewrite Hhi, Hlo.
  - intros Hle.
    rewrite (float_leb_ltb_trans conf 0 1 Hle eq_refl).
    by rewrite (float_leb_ltb_false conf 0 0 Hle eq_refl).
  - intros Hge.
    by rewrite (float_leb_ltb_false 1 1 conf eq_refl Hge).
  - intros [Hnan _]%(float_nan_ltb conf 1). by rewrite Hnan.
Qed.
End asr_facts2.

Section transcribe_facts.
Context `{Unicode}.
Variable ASR_PROVIDER : str.
Variable ASR_CONFIDENCE_THRESHOLD : float.
Variable mean : list float → float.
Variable recognize : str → str → option str → Asr.error + Asr.Recognition.
Variable tmp_path : str → str.

(** X19. With any provider other than "local" configured, /transcribe
    answers 501 to every upload, whatever the recogniser would have
    returned: the cloud path is a placeholder that always raises. *)
Theorem transcribe_cloud_is_not_implemented (filename : str) :
  ASR_PROVIDER ≠ «"local"» →
  Server.transcribe ASR_PROVIDER ASR_CONFIDENCE_THRESHOLD mean recognize
    tmp_path filename
  = Server.HTTPException 501.
Proof.
  intros Hp. unfold Server.transcribe.
  by rewrite bool_decide_eq_false_2.
Qed.

(** X20. With the local provider, /transcribe fails exactly as the
    recogniser does (501 for [NotImplementedError], 500 for anything else),
    and otherwise answers with the stripped text and a confidence between 0
    and 1. The transcription is flagged as of low confidence exactly when
    the confidence is below the configured threshold, and carries the
    clarification prompt exactly when it is flagged. A threshold at or below
    0 therefore never flags, and a threshold above 1 always does. *)
Theorem transcribe_local (filename : str) :
  ASR_PROVIDER = «"local"» →
  match recognize «"small"» (tmp_path filename) (Some «"te"») with
  | inl e =>
      Server.transcribe ASR_PROVIDER ASR_CONFIDENCE_THRESHOLD mean recognize
        tmp_path filename
      = Server.HTTPException
          match e with
          | Asr.NotImplementedError => 501
          | Asr.OtherException => 500
          end
  | inr result =>
      ∃ t,
        Server.transcribe ASR_PROVIDER ASR_CONFIDENCE_THRESHOLD mean
          recognize tmp_path filename
        = Server.Answer t
        ∧ Server.text t = strip (default [] (Asr.rec_text result))
        ∧ Server.confidence t = Asr._compute_confidence mean (Some result)
        ∧ (0 <=? Server.confidence t)%float = true
        ∧ (Server.confidence t <=? 1)%float = true
        ∧ Server.low_confidence t
          = (Server.confidence t <? ASR_CONFIDENCE_THRESHOLD)%float
        ∧ Server.clarify_prompt t
          = (if Server.low_confidence t then Some Server.CLARIFY_PROMPT
             else None)
        ∧ ((ASR_CONFIDENCE_THRESHOLD <=? 0)%float = true →
           Server.low_confidence t = false)
        ∧ ((1 <? ASR_CONFIDENCE_THRESHOLD)%float = true →
           Server.low_confidence t = true)
  end.
Proof.
  intros Hp. unfold Server.transcribe, Asr.transcribe_file.
  rewrite bool_decide_eq_true_2 by done. cbn [negb truthy nonempty].
  destruct (recognize _ _ _) as [[]|result]; [done|done|].
  assert ((0 <=? Asr._compute_confidence mean (Some result))%float = true
          ∧ (Asr._compute_confidence mean (Some result) <=? 1)%float = true)
    as [Hlo Hhi].
  { unfold Asr._compute_confidence.
    destruct (default [] _); [by split|].
    destruct (omap _ _); [by split|]. apply clamp_range. }
  eexists. split; [reflexivity|]. cbn.
  split_and!; try done.
  - intros Hthr. by apply (float_leb_ltb_false _ 0).
  - intros Hthr. by apply (float_leb_ltb_trans _ 1).
Qed.
End transcribe_facts.

(** ** The agent endpoint *)

Section endpoint_facts.
Context `{Unicode} {world : Type} `{Collaborators world}.
Variable create_session : str → state world → str * state world.
Variable reply_path : str → str.
Implicit Types (sv : Endpoint.server world) (payload : Endpoint.Payload).

(** X21. A request to /agent without a transcript, or with an empty one,
    is refused with 400 and nothing is synthesised; but when it also comes
    without a session identifier, the session has been created by then:
    the store is the one [create_session] left. With an identifier, the
    store is untouched. *)
Theorem agent_endpoint_missing_transcript payload sv :
  truthy (Endpoint.transcript payload) = false →
  Endpoint.agent_endpoint create_session reply_path payload sv
  = (Server.HTTPException 400,
     Endpoint.Server
       (if truthy (Endpoint.session_id payload) then Endpoint.core sv
        else (create_session «"te"» (Endpoint.core sv)).2)
       (Endpoint.spoken sv)).
Proof.
  intros Ht. unfold Endpoint.agent_endpoint.
  destruct (truthy (Endpoint.session_id payload)); cbn [negb].
  - by rewrite Ht.
  - destruct (create_session _ _) as [sid st]. by rewrite Ht.
Qed.

(** X22. A request to /agent that names a session the store does not know
    is not refused: it is answered with a 200 whose status is "error", with
    no reply, no audio, no offers and no application; no session is created
    under that name or any other, nothing is recorded and nothing is
    synthesised. *)
Theorem agent_endpoint_unknown_session payload sv (sid text : str) :
  Endpoint.session_id payload = Some sid → sid ≠ [] →
  Endpoint.transcript payload = Some text → text ≠ [] →
  sessions (Endpoint.core sv) !! sid = None →
  Endpoint.agent_endpoint create_session reply_path payload sv
  = (Server.Answer
       {| Endpoint.response_session_id := sid;
          Endpoint.response_status := Some «"error"»;
          Endpoint.response_reply := None;
          Endpoint.response_audio := None;
          Endpoint.response_eligible := None;
          Endpoint.response_application_id := None |},
     sv).
Proof.
  intros Hid Hne Ht Htne Hnone. unfold Endpoint.agent_endpoint.
  rewrite Hid, Ht. destruct sid; [done|]. destruct text; [done|].
  cbn [truthy nonempty negb default from_option id].
  unfold process_input, process_input_run. rewrite !bind_run.
  unfold get_session. rewrite Hnone. cbn. by destruct sv.
Qed.
End endpoint_facts.

Section endpoint_replies.
Context `{Unicode} {world : Type} `{Collaborators world}.
Variable create_session : str → state world → str * state world.
Variable reply_path : str → str.
Implicit Types (sv : Endpoint.server world) (payload : Endpoint.Payload).

(** X23. A request to /agent with a transcript, for a session the store
    knows, when the schemes that can be looked up have documents: the answer
    is a 200 for that session with a non-empty reply and the path of its
    audio, whatever confidence was sent or left out. The reply is
    synthesised exactly once, to that path, in Telugu, and the history of
    the session grows by the transcript and the reply. No session is
    created. *)
Theorem agent_endpoint_replies payload sv (sid text : str)
    (session : Session) :
  Endpoint.session_id payload = Some sid → sid ≠ [] →
  Endpoint.transcript payload = Some text → text ≠ [] →
  sessions (Endpoint.core sv) !! sid = Some session →
  documented (default [] (last_eligibility session)) →
  (∀ query w, documented (search_schemes query w).1) →
  ∃ r sv' reply,
    Endpoint.agent_endpoint create_session reply_path payload sv
    = (Server.Answer r, sv')
    ∧ Endpoint.response_session_id r = sid
    ∧ Endpoint.response_reply r = Some reply ∧ reply ≠ []
    ∧ Endpoint.response_audio r = Some (reply_path sid)
    ∧ Endpoint.spoken sv'
      = Endpoint.spoken sv ++ [(reply, reply_path sid, «"te"»)]
    ∧ dom (sessions (Endpoint.core sv')) = dom (sessions (Endpoint.core sv))
    ∧ history <$> sessions (Endpoint.core sv') !! sid
      = Some (history session ++ [(USER, text); (ASSISTANT, reply)]).
Proof.
  intros Hid Hne Ht Htne Hs Hoffers Hsearch.
  destruct (process_input_run_replies sid text
              (default 1%float (Endpoint.confidence payload))
              (Endpoint.core sv) session Hoffers Hsearch Hs)
    as (r & st' & reply & session' & Hrun & _ & _ & Hreply & Hrne & Hframe
        & Hhist).
  unfold Endpoint.agent_endpoint.
  rewrite Hid, Ht. destruct sid as [|c0 sid]; [done|].
  destruct text as [|c1 text]; [done|].
  cbn [truthy nonempty negb default from_option id].
  unfold process_input. rewrite bind_run.
  cbn [default from_option id] in Hrun. rewrite Hrun. rewrite ret_run.
  rewrite Hreply. destruct reply as [|c2 reply]; [done|].
  cbn [truthy nonempty default from_option id].
  eexists _, _, _. split; [reflexivity|].
  cbn [Endpoint.response_session_id Endpoint.response_reply
       Endpoint.response_audio Endpoint.spoken Endpoint.core].
  rewrite Hframe, lookup_insert_eq, <- Hhist.
  split_and!; try done. by apply dom_insert_lookup_L.
Qed.
End endpoint_replies.

(** ** The retrying client *)

Section client_facts.
Context `{Unicode} {world response error : Type}.
Variable services : RetryClient.Services world response error.
Variable self : RetryClient.RetryClient world error.
Implicit Types (s : RetryClient.io world) (w : world)
  (from : list RetryClient.event).

Lemma flow_trace_none (n : nat) (sid : option str) from w :
  flow_trace (response := response) (error := error) n sid from
    (RetryClient.Done None (RetryClient.IO w from)).
Proof.
  exists [], []. cbn. rewrite app_nil_r. split_and!; [done|constructor|lia|done].
Qed.

Lemma flow_trace_failed (n : nat) (sid : option str) from w (e : error) :
  flow_trace (response := response) n sid from
    (RetryClient.Failed e (RetryClient.IO w from)).
Proof.
  exists [], []. cbn. rewrite app_nil_r.
  split_and!; [done|constructor|lia|by left].
Qed.

Lemma flow_trace_agent (n : nat) (sid : option str) from w (t : str)
    (c : float) (r : error + response) :
  flow_trace n sid from
    match r with
    | inr a =>
        RetryClient.Done (Some a)
          (RetryClient.IO w (from ++ [RetryClient.CallAgent t c sid]))
    | inl e =>
        RetryClient.Failed e
          (RetryClient.IO w (from ++ [RetryClient.CallAgent t c sid]))
    end.
Proof.
  exists [], [RetryClient.CallAgent t c sid].
  destruct r; cbn; (split_and!; [done|constructor|lia|by eauto]).
Qed.

Lemma flow_trace_quiet (n : nat) (sid : option str) from
    (e : RetryClient.event) r :
  is_call_agent e = false → is_transcribe e = false →
  flow_trace (world := world) (response := response) (error := error)
    n sid (from ++ [e]) r →
  flow_trace n sid from r.
Proof.
  intros Ha Ht (before & after & Hev & Hquiet & Hlen & Hr).
  exists (e :: before), after. rewrite <- app_assoc in Hev.
  split_and!; [done|by constructor| |done].
  rewrite filter_cons_False by (by rewrite Ht). done.
Qed.

Lemma flow_trace_transcribe (n : nat) (sid : option str) from (p : str) r :
  flow_trace (world := world) (response := response) (error := error)
    n sid (from ++ [RetryClient.Transcribe p]) r →
  flow_trace (S n) sid from r.
Proof.
  intros (before & after & Hev & Hquiet & Hlen & Hr).
  exists (RetryClient.Transcribe p :: before), after.
  rewrite <- app_assoc in Hev.
  split_and!; [done|by constructor| |done].
  rewrite filter_cons_True by done. cbn. lia.
Qed.

Lemma rounds_trace (n : nat) (auto_retry : bool) (audio_path : str)
    (sid : option str) s :
  flow_trace n sid (RetryClient.events s)
    (RetryClient.rounds services self n auto_retry audio_path sid s).
Proof.
  revert audio_path s. induction n as [|n IH]; intros audio_path [w from].
  { apply flow_trace_none. }
  cbn [RetryClient.rounds RetryClient.events].
  unfold mbind, RetryClient.Act_bind, RetryClient.perform,
    RetryClient.attempt.
  cbn [RetryClient.outside RetryClient.events].
  eapply flow_trace_transcribe.
  destruct (RetryClient.transcribe_file services audio_path w)
    as [[e|resp] w1]; [apply flow_trace_failed|].
  destruct (RetryClient.low_confidence resp).
  - destruct (RetryClient.auto_record self).
    + destruct (RetryClient.record_fn self) as [record|].
      * cbn [RetryClient.outside RetryClient.events].
        eapply (flow_trace_quiet _ _ _ RetryClient.RecordFn); [done..|].
        destruct (record w1) as [[e|path] w2]; [apply flow_trace_failed|].
        apply (IH path (RetryClient.IO w2 _)).
      * destruct (RetryClient.default_record services) as [record|];
          [|apply flow_trace_none].
        cbn [RetryClient.outside RetryClient.events].
        eapply (flow_trace_quiet _ _ _ RetryClient.TemporaryFile); [done..|].
        destruct (RetryClient.temporary_file services w1)
          as [[e|new_file] w2]; [apply flow_trace_failed|].
        cbn [RetryClient.outside RetryClient.events].
        eapply (flow_trace_quiet _ _ _ (RetryClient.DefaultRecord _ _));
          [done..|].
        destruct (record _ new_file w2) as [[e|[]] w3];
          [apply flow_trace_none|].
        apply (IH new_file (RetryClient.IO w3 _)).
    + destruct auto_retry.
      * apply (IH audio_path (RetryClient.IO w1 _)).
      * cbn [RetryClient.outside RetryClient.events].
        eapply (flow_trace_quiet _ _ _ RetryClient.Input); [done..|].
        destruct (RetryClient.input services w1) as [[e|ans] w2];
          [apply flow_trace_failed|].
        case_bool_decide; [apply flow_trace_none|].
        apply (IH audio_path (RetryClient.IO w2 _)).
  - cbn [RetryClient.outside RetryClient.events].
    match goal with
    | |- context [RetryClient.call_agent services ?t ?c sid w1] =>
        destruct (RetryClient.call_agent services t c sid w1) as [[e|a] w2];
        [exact (flow_trace_agent _ _ _ w2 t c (inl e))
        |exact (flow_trace_agent _ _ _ w2 t c (inr a))]
    end.
Qed.

(** X24. Whatever the server, the recorder and the terminal do, a run of the
    client transcribes at most [max_retries] times (never, when that is 0
    or negative) and calls the agent at most once, as the last thing it
    does and without a session identifier: exactly once when it returns a
    response, never when it returns [None]. *)
Theorem run_flow_requests (audio_path : str) (auto_retry : bool) s :
  let r := RetryClient.run_flow services self audio_path auto_retry s in
  ∃ before after,
    RetryClient.events (RetryClient.final r)
    = RetryClient.events s ++ before ++ after
    ∧ Forall (λ e, is_call_agent e = false) before
    ∧ (Z.of_nat (length (filter (λ e, is_transcribe e = true) before))
       ≤ Z.max 0 (RetryClient.max_retries self))%Z
    ∧ match r with
      | RetryClient.Done (Some _) _ =>
          ∃ t c, after = [RetryClient.CallAgent t c None]
      | RetryClient.Done None _ => after = []
      | RetryClient.Failed _ _ =>
          after = [] ∨ ∃ t c, after = [RetryClient.CallAgent t c None]
      end.
Proof.
  intros r.
  destruct (rounds_trace (Z.to_nat (RetryClient.max_retries self))
              auto_retry audio_path None s)
    as (before & after & Hev & Hquiet & Hlen & Hr).
  exists before, after. split_and!; [done|done|lia|done].
Qed.

(** X25. When the server finds every transcription of the file of low
    confidence, a client that retries by itself and does not record gives
    up: it returns [None] after exactly [max_retries] transcriptions of
    that same file (none when that is 0 or negative), and never calls the
    agent. *)
Theorem run_flow_gives_up (audio_path : str) s :
  RetryClient.auto_record self = false →
  (∀ w, ∃ resp w',
     RetryClient.transcribe_file services audio_path w = (inr resp, w')
     ∧ RetryClient.low_confidence resp = true) →
  ∃ w',
    RetryClient.run_flow services self audio_path true s
    = RetryClient.Done None
        (RetryClient.IO w'
           (RetryClient.events s ++
            replicate (Z.to_nat (RetryClient.max_retries self))
                      (RetryClient.Transcribe audio_path))).
Proof.
  intros Hrec Hlow. unfold RetryClient.run_flow.
  generalize (Z.to_nat (RetryClient.max_retries self)).
  intros n. revert s. induction n as [|n IH]; intros [w from].
  { exists w. cbn. by rewrite app_nil_r. }
  cbn [RetryClient.rounds].
  unfold mbind, RetryClient.Act_bind, RetryClient.perform.
  cbn [RetryClient.outside RetryClient.events].
  destruct (Hlow w) as (resp & w1 & -> & ->). rewrite Hrec.
  destruct (IH (RetryClient.IO w1 (from ++ [RetryClient.Transcribe audio_path])))
    as [w' ->].
  exists w'. cbn [RetryClient.events replicate]. by rewrite <- app_assoc.
Qed.

(** X26. When the first transcription is not of low confidence, and at
    least one round is allowed, the client calls the agent at once: with
    the text and the confidence of the transcription, or the empty text and
    the confidence 0 where the answer lacks them, and without a session
    identifier. It returns what the agent answered, after one transcription
    and one call, whatever the flags of the client are. *)
Theorem run_flow_confident (audio_path : str) (auto_retry : bool) s
    (resp : RetryClient.Transcription) (w1 w2 : world) (answer : response) :
  (0 < RetryClient.max_retries self)%Z →
  RetryClient.transcribe_file services audio_path (RetryClient.outside s)
  = (inr resp, w1) →
  RetryClient.low_confidence resp = false →
  let transcript := default [] (RetryClient.text resp) in
  let confidence := default 0%float (RetryClient.confidence resp) in
  RetryClient.call_agent services transcript confidence None w1
  = (inr answer, w2) →
  RetryClient.run_flow services self audio_path auto_retry s
  = RetryClient.Done (Some answer)
      (RetryClient.IO w2
         (RetryClient.events s ++
          [RetryClient.Transcribe audio_path;
           RetryClient.CallAgent transcript confidence None])).
Proof.
  intros Hmax Ht Hlow transcript confidence Ha. unfold RetryClient.run_flow.
  destruct (Z.to_nat (RetryClient.max_retries self)) as [|n] eqn:Hn; [lia|].
  cbn [RetryClient.rounds].
  unfold mbind, RetryClient.Act_bind, RetryClient.perform.
  rewrite Ht, Hlow. cbn [RetryClient.outside RetryClient.events].
  fold transcript confidence. rewrite Ha. cbn.
  by rewrite <- app_assoc.
Qed.
End client_facts.

(** * Scenarios *)

(** The properties above, on the concrete setting [Demo]. *)
#[local] Existing Instance AsciiOnly.unicode.

Lemma plan_low_confidence_witness :
  (0.5 <? THRESHOLD)%float = true
  ∧ plan (Demo.session ∅ (Some AGE) None) «"24"» 0.5
    = [ClarifyAsr].
Proof.
  split; [reflexivity|].
  apply (plan_low_confidence). reflexivity.
Defined.

Lemma plan_decision_order_witness :
  (THRESHOLD <=? 1)%float = true
  ∧ plan
      (Demo.session ∅ (Some CONFIRMATION) None) «"More DETAILS please"» 1
    = [DescribeScheme «"More DETAILS please"»]
  ∧ plan
      (Demo.session ∅ (Some AGE) None) «"I am 30"» 1
    = [FillField AGE]
  ∧ plan
      (Demo.session {[ AGE := 30%Z ]} None None) «"hello"» 1
    = [AskField INCOME].
Proof.
  split; [reflexivity|]. split_and!.
  - refine (proj1 (plan_decision_order
                     _ _ 1 _) _ _); [reflexivity|reflexivity|].
    apply any_in_spec. reflexivity.
  - refine (proj1 (proj2 (proj2 (plan_decision_order
                     _ _ 1 _))) AGE _ _ _); [reflexivity|reflexivity|done|done].
  - refine (proj1 (proj2 (proj2 (proj2 (proj2
              (plan_decision_order _ _ 1 _)))))
              _ _ _); [reflexivity|reflexivity| |reflexivity].
    exists 30%Z. reflexivity.
Defined.

Lemma unknown_session_is_an_error_witness :
  ∃ out, execute Confirm «"s2"» «"yes"»
           (Demo.store (Demo.session ∅ None None))
         = Ok out (Demo.store (Demo.session ∅ None None))
         ∧ process_input (agent) «"s2"» «"yes"» 1
             (Demo.store (Demo.session ∅ None None))
           = Ok {| status := Some «"error"»; reply := None; eligible := None;
                   application_id := None; field := None;
                   error := Some «"session_not_found"» |}
                (Demo.store (Demo.session ∅ None None)).
Proof.
  eexists.
  apply (unknown_session_is_an_error
           (agent) Confirm «"s2"» «"yes"» 1
           (Demo.store (Demo.session ∅ None None))).
  reflexivity.
Defined.

Lemma execute_confirm_witness :
  (∃ out st',
     execute Confirm Demo.SID «"yes"» Demo.confirming = Ok out st'
     ∧ application_id out = Some «"APP-1"»
     ∧ calls st' = [CallSubmitApplication Demo.full_profile]
     ∧ waiting_for <$> sessions st' !! Demo.SID = Some None)
  ∧ (∃ out st',
       execute Confirm Demo.SID «"no"» Demo.confirming = Ok out st'
       ∧ status out = Some «"declined"»
       ∧ calls st' = []
       ∧ waiting_for <$> sessions st' !! Demo.SID = Some None)
  ∧ (∃ out st',
       execute Confirm Demo.SID «"yes or no"» Demo.confirming = Ok out st'
       ∧ status out = Some «"confirm_ask"»
       ∧ calls st' = []
       ∧ waiting_for <$> sessions st' !! Demo.SID = Some (Some CONFIRMATION)).
Proof.
  split_and!; eexists _, _.
  - split.
    + refine (proj1 (execute_confirm Demo.SID «"yes"» Demo.confirming _ _) _ _ _ _);
        reflexivity.
    + split_and!; reflexivity.
  - split.
    + refine (proj1 (proj2 (execute_confirm Demo.SID «"no"» Demo.confirming _ _)) _);
        reflexivity.
    + split_and!; reflexivity.
  - split.
    + refine (proj2 (proj2 (execute_confirm Demo.SID «"yes or no"»
                               Demo.confirming _ _)) _); reflexivity.
    + split_and!; reflexivity.
Defined.

Lemma execute_check_eligibility_witness :
  (∃ out st',
     execute CheckEligibility Demo.SID «"hello"»
       (Demo.store (Demo.session Demo.full_profile None None))
     = Ok out st'
     ∧ eligible out = Some [Demo.kisan]
     ∧ calls st' = [CallCheckEligibility Demo.full_profile]
     ∧ waiting_for <$> sessions st' !! Demo.SID = Some (Some CONFIRMATION)
     ∧ last_eligibility <$> sessions st' !! Demo.SID
       = Some (Some [Demo.kisan]))
  ∧ (∃ out st',
       execute CheckEligibility Demo.SID «"hello"»
         (Demo.store (Demo.session ∅ (Some AGE) None))
       = Ok out st'
       ∧ eligible out = Some []
       ∧ calls st' = [CallCheckEligibility ∅]
       ∧ waiting_for <$> sessions st' !! Demo.SID = Some None).
Proof.
  split; eexists _, _.
  - split.
    + refine (proj1 (execute_check_eligibility Demo.SID «"hello"»
               (Demo.store (Demo.session Demo.full_profile None None))
               _ [Demo.kisan] 0%nat _ _) _); [reflexivity|reflexivity|done].
    + split_and!; reflexivity.
  - split.
    + refine (proj2 (execute_check_eligibility Demo.SID «"hello"»
               (Demo.store (Demo.session ∅ (Some AGE) None))
               _ [] 0%nat _ _) _); reflexivity.
    + split_and!; reflexivity.
Defined.

Lemma execute_describe_scheme_witness :
  (∃ out st',
     execute (DescribeScheme «"details about PM Kisan"») Demo.SID
       «"details about PM Kisan"» Demo.confirming
     = Ok out st'
     ∧ reply out = Some «"PM Kisan: Income support for farmers"»
     ∧ calls st' = [CallGetSchemeById «"pm-kisan"»]
     ∧ waiting_for <$> sessions st' !! Demo.SID = Some (Some CONFIRMATION))
  ∧ (∃ out st',
       execute (DescribeScheme «"more about pensions"») Demo.SID
         «"more about pensions"» Demo.confirming
       = Ok out st'
       ∧ status out = Some «"no_details"»
       ∧ calls st' = [CallSearchSchemes «"more about pensions"»]
       ∧ waiting_for <$> sessions st' !! Demo.SID
         = Some (Some CONFIRMATION)).
Proof.
  split; eexists _, _.
  - split.
    + refine (proj1 (execute_describe_scheme Demo.SID _
               «"details about PM Kisan"» Demo.confirming _ _)
               Demo.kisan [] Demo.kisan 0%nat _ _); reflexivity.
    + split_and!; reflexivity.
  - split.
    + refine (proj2 (proj2 (execute_describe_scheme Demo.SID _
               «"more about pensions"» Demo.confirming _ _)) 0%nat _ _); reflexivity.
    + split_and!; reflexivity.
Defined.

Lemma execute_fill_field_witness :
  (∃ st',
     execute (FillField AGE) Demo.SID «"I am 30 years old"»
       (Demo.store (Demo.session ∅ (Some AGE) None))
     = Ok (filled_outcome AGE) st'
     ∧ sessions st' !! Demo.SID
       = Some (Demo.session {[ AGE := 30%Z ]} None None))
  ∧ (∃ st',
       execute (FillField INCOME) Demo.SID «"about 1,50,000 rupees"»
         (Demo.store (Demo.session ∅ (Some INCOME) None))
       = Ok (filled_outcome INCOME) st'
       ∧ sessions st' !! Demo.SID
         = Some (Demo.session {[ INCOME := 150000%Z ]} None None))
  ∧ (∃ out st',
       execute (FillField AGE) Demo.SID «"thirty"»
         (Demo.store (Demo.session ∅ (Some AGE) None))
       = Ok out st'
       ∧ status out = Some «"ask"»
       ∧ waiting_for <$> sessions st' !! Demo.SID = Some (Some AGE)
       ∧ profile <$> sessions st' !! Demo.SID = Some ∅).
Proof.
  split_and!.
  - eexists. split.
    + refine (proj1 (execute_fill_field Demo.SID «"I am 30 years old"» AGE
                (Demo.store (Demo.session ∅ (Some AGE) None)) _ _)
                «"30"» _ _); [reflexivity|reflexivity|].
      apply search_digits_is_first_run. reflexivity.
    + reflexivity.
  - eexists. split.
    + refine (proj1 (proj2 (execute_fill_field Demo.SID
                «"about 1,50,000 rupees"» INCOME
                (Demo.store (Demo.session ∅ (Some INCOME) None)) _ _))
                «"150000"» _ _); [reflexivity|reflexivity|].
      apply search_digits_is_first_run. reflexivity.
    + reflexivity.
  - eexists _, _. split.
    + refine (proj2 (proj2 (execute_fill_field Demo.SID «"thirty"» AGE
                (Demo.store (Demo.session ∅ (Some AGE) None)) _ _)) _);
        [reflexivity|].
      left. split; [reflexivity|]. repeat constructor; discriminate.
    + split_and!; reflexivity.
Defined.

Lemma execute_fill_age_truncates_witness :
  ∃ st',
    execute (FillField AGE) Demo.SID «"born in 2024"»
      (Demo.store (Demo.session ∅ (Some AGE) None))
    = Ok (filled_outcome AGE) st'
    ∧ sessions st' !! Demo.SID
      = Some (Demo.session {[ AGE := 202%Z ]} None None).
Proof.
  eexists. split.
  - refine (proj2 (execute_fill_age_truncates Demo.SID «"born in 2024"»
              «"2024"» (Demo.store (Demo.session ∅ (Some AGE) None)) _
              _ _ _)); [reflexivity| |simpl; lia].
    apply search_digits_is_first_run. reflexivity.
  - reflexivity.
Defined.

Lemma process_input_bounded_witness :
  ∃ r st',
    always_filled_run = Ok r st'
    ∧ iterations r = 5%nat ∧ length (executed r) = 5%nat
    ∧ status (response r) = Some FILLED
    ∧ truthy (reply (response r)) = false.
Proof.
  destruct (process_input_bounded (λ _ _ _, [FillField AGE])
              (λ _ _ _, mret (filled_outcome AGE)) Demo.SID «"hello"» 1
              (λ step st, ex_intro _ _ (ex_intro _ st eq_refl))
              (Demo.store (Demo.session ∅ None None))
              (Demo.session ∅ None None) eq_refl)
    as (r & st' & Hrun & _ & _ & _ & Hall & _).
  assert (always_filled_run = Ok r st') as Hrun' by exact Hrun.
  exists r, st'. split; [exact Hrun'|].
  apply Hall; [done|].
  assert (executed <$> (match always_filled_run with
                        | Ok r _ => Some r
                        | Raise _ _ => None
                        end) = Some (executed r)) as Hlog
    by (by rewrite Hrun').
  remember (executed r) as log eqn:Hexec. clear Hexec.
  vm_compute in Hlog. injection Hlog as <-.
  repeat constructor.
Defined.

(** C2, as stated, fails: with a planner and an executor that always fill
    and never reply, the call makes its 5 rounds, every executed step has
    status "filled" and no reply, and the response has the status "filled",
    not "no_action". *)
Lemma always_filled_is_not_no_action :
  ∃ r st',
    always_filled_run = Ok r st'
    ∧ iterations r = 5%nat
    ∧ Forall (λ so, quiet so ∧ filled so) (executed r)
    ∧ status (response r) = Some FILLED
    ∧ status (response r) ≠ Some NO_ACTION.
Proof.
  eexists _, _. split; [vm_compute; reflexivity|].
  split_and!; [reflexivity|repeat constructor|reflexivity|discriminate].
Qed.

(** The other way to the status "no_action": an executor whose outcomes are
    all the empty dict. The call makes its 5 rounds and executes 5 steps,
    and the fallback, made from an outcome that is falsy, is the one with
    the status "no_action" and the empty reply. *)
Example empty_outcomes_give_no_action :
  ∃ r st',
    process_input_run
      {| planner := λ _ _ _, [Confirm];
         executor := λ _ _ _, mret (Outcome None None None None None None);
         evaluator := evaluate |}
      Demo.SID «"hello"» 1 (Demo.store (Demo.session ∅ None None))
    = Ok r st'
    ∧ iterations r = 5%nat ∧ length (executed r) = 5%nat
    ∧ status (response r) = Some NO_ACTION
    ∧ reply (response r) = Some [].
Proof. eexists _, _. split; [vm_compute; reflexivity|]. by split_and!. Qed.

(** ** End-to-end scenarios with the agent of the source *)

(** A session with an empty profile is asked for the age. *)
Example scenario_ask_age :
  ∃ out st',
    process_input agent Demo.SID «"hello"» 1
      (Demo.store (Demo.session ∅ None None)) = Ok out st'
    ∧ status out = Some «"ask"»
    ∧ reply out = Some «"దయచేసి మీ వయస్సును చెప్పండి."»
    ∧ waiting_for <$> sessions st' !! Demo.SID = Some (Some AGE).
Proof. eexists _, _. split; [vm_compute; reflexivity|]. by split_and!. Qed.

(** Waiting for the age, "I am 30 years old" fills it and the same call
    goes on to ask for the income. *)
Example scenario_fill_then_ask :
  ∃ r st',
    process_input_run agent Demo.SID «"I am 30 years old"» 1
      (Demo.store (Demo.session ∅ (Some AGE) None)) = Ok r st'
    ∧ iterations r = 2%nat
    ∧ fst <$> executed r = [FillField AGE; AskField INCOME]
    ∧ status (response r) = Some «"ask"»
    ∧ profile <$> sessions st' !! Demo.SID = Some {[ AGE := 30%Z ]}
    ∧ waiting_for <$> sessions st' !! Demo.SID = Some (Some INCOME).
Proof. eexists _, _. split; [vm_compute; reflexivity|]. by split_and!. Qed.

(** Waiting for confirmation, a negative answer declines and submits
    nothing. *)
Example scenario_decline :
  ∃ out st',
    process_input agent Demo.SID «"లేదు"» 1
      (Demo.store (Demo.session Demo.full_profile (Some CONFIRMATION)
                     (Some [Demo.kisan]))) = Ok out st'
    ∧ status out = Some «"declined"»
    ∧ calls st' = []
    ∧ waiting_for <$> sessions st' !! Demo.SID = Some None.
Proof. eexists _, _. split; [vm_compute; reflexivity|]. by split_and!. Qed.

(** Waiting for confirmation, an affirmative answer submits once. *)
Example scenario_submit :
  ∃ out st',
    process_input agent Demo.SID «"అవును"» 1
      (Demo.store (Demo.session Demo.full_profile (Some CONFIRMATION)
                     (Some [Demo.kisan]))) = Ok out st'
    ∧ status out = Some «"submitted"»
    ∧ application_id out = Some «"APP-1"»
    ∧ calls st' = [CallSubmitApplication Demo.full_profile].
Proof. eexists _, _. split; [vm_compute; reflexivity|]. by split_and!. Qed.

(** The further properties, on the same setting. *)
Lemma execute_history_witness :
  ∃ out st',
    execute (AskField AGE) Demo.SID «"hello"»
      (Demo.store (Demo.session ∅ None None)) = Ok out st'
    ∧ ∃ session',
        sessions st' !! Demo.SID = Some session'
        ∧ history session' =
            history (Demo.session ∅ None None) ++
            match reply out with Some r => [(ASSISTANT, r)] | None => [] end.
Proof.
  eexists _, _. split; [vm_compute; reflexivity|].
  apply (execute_history (AskField AGE) Demo.SID «"hello"»
           (Demo.store (Demo.session ∅ None None))); reflexivity.
Defined.

Lemma execute_profile_witness :
  ∃ out st',
    execute (FillField AGE) Demo.SID «"I am 30"»
      (Demo.store (Demo.session ∅ (Some AGE) None)) = Ok out st'
    ∧ ∃ session',
        sessions st' !! Demo.SID = Some session'
        ∧ (profile session' = profile (Demo.session ∅ (Some AGE) None)
           ∨ ∃ key value,
               FillField AGE = FillField key ∧ (key = AGE ∨ key = INCOME)
               ∧ status out = Some FILLED
               ∧ profile session'
                 = <[key := value]>
                     (profile (Demo.session ∅ (Some AGE) None))).
Proof.
  eexists _, _. split; [vm_compute; reflexivity|].
  apply (execute_profile (FillField AGE) Demo.SID «"I am 30"»
           (Demo.store (Demo.session ∅ (Some AGE) None))); reflexivity.
Defined.

Lemma execute_last_eligibility_witness :
  ∃ out st',
    execute CheckEligibility Demo.SID «"hello"»
      (Demo.store (Demo.session Demo.full_profile None None)) = Ok out st'
    ∧ ∃ session',
        sessions st' !! Demo.SID = Some session'
        ∧ (last_eligibility session'
           = last_eligibility (Demo.session Demo.full_profile None None)
           ∨ CheckEligibility = CheckEligibility ∧ is_Some (eligible out)
             ∧ last_eligibility session' = eligible out).
Proof.
  eexists _, _. split; [vm_compute; reflexivity|].
  apply (execute_last_eligibility CheckEligibility Demo.SID «"hello"»
           (Demo.store (Demo.session Demo.full_profile None None)));
    reflexivity.
Defined.

Lemma execute_calls_witness :
  ∃ new,
    calls (state_after (execute Confirm Demo.SID «"yes"» Demo.confirming))
    = calls Demo.confirming ++ new
    ∧ new = if decide (parse_confirmation «"yes"» = Some true)
            then [CallSubmitApplication Demo.full_profile] else [].
Proof.
  apply (execute_calls Confirm Demo.SID «"yes"» Demo.confirming
           (Demo.session Demo.full_profile (Some CONFIRMATION)
              (Some [Demo.kisan]))).
  reflexivity.
Defined.

Lemma execute_silent_witness :
  ∃ out st',
    execute (FillField AGE) Demo.SID «"I am 30"»
      (Demo.store (Demo.session ∅ (Some AGE) None)) = Ok out st'
    ∧ (truthy (reply out) = true
       ∨ reply out = None
         ∧ ((∃ f, FillField AGE = FillField f ∧ status out = Some FILLED
                  ∧ waiting_for <$> sessions st' !! Demo.SID = Some None)
            ∨ ∃ name, FillField AGE = UnknownStep name
                      ∧ status out = Some «"unknown_step"»)).
Proof.
  eexists _, _. split; [vm_compute; reflexivity|].
  apply (execute_silent (FillField AGE) Demo.SID «"I am 30"»
           (Demo.store (Demo.session ∅ (Some AGE) None))
           (Demo.session ∅ (Some AGE) None)); reflexivity.
Defined.

Lemma execute_ask_field_witness :
  ∃ out st',
    execute (AskField INCOME) Demo.SID «"hello"»
      (Demo.store (Demo.session {[ AGE := 30%Z ]} None None)) = Ok out st'
    ∧ status out = Some «"ask"»
    ∧ waiting_for <$> sessions st' !! Demo.SID = Some (Some INCOME)
    ∧ calls st' = [].
Proof.
  eexists _, _. split.
  - refine (proj1 (proj2 (execute_ask_field INCOME Demo.SID «"hello"»
              (Demo.store (Demo.session {[ AGE := 30%Z ]} None None)) _ _))
              _); reflexivity.
  - split_and!; reflexivity.
Defined.

Lemma execute_submit_application_witness :
  ∃ out st',
    execute SubmitApplication Demo.SID «"hello"»
      (Demo.store (Demo.session Demo.full_profile None None)) = Ok out st'
    ∧ reply out = Some «"Your application has been submitted. ID: APP-1"»
    ∧ application_id out = None
    ∧ calls st' = [CallSubmitApplication Demo.full_profile]
    ∧ env st' = 1%nat.
Proof.
  eexists _, _. split.
  - refine (execute_submit_application Demo.SID «"hello"»
              (Demo.store (Demo.session Demo.full_profile None None)) _
              «"APP-1"» 1%nat _ _); reflexivity.
  - split_and!; reflexivity.
Defined.

Lemma execute_fill_bounds_witness :
  ∃ out st',
    execute (FillField AGE) Demo.SID «"born in 2024"»
      (Demo.store (Demo.session ∅ (Some AGE) None)) = Ok out st'
    ∧ ∃ session' value,
        sessions st' !! Demo.SID = Some session'
        ∧ profile session'
          = <[AGE := value]> (profile (Demo.session ∅ (Some AGE) None))
        ∧ (0 ≤ value)%Z
        ∧ (AGE = AGE → (value ≤ 999)%Z).
Proof.
  eexists _, _. split; [vm_compute; reflexivity|].
  eapply (execute_fill_bounds Demo.SID «"born in 2024"» AGE
           (Demo.store (Demo.session ∅ (Some AGE) None))
           (Demo.session ∅ (Some AGE) None)); [|reflexivity..].
  intros c. unfold isdecimal, todecimal; simpl.
  unfold AsciiOnly.is_decimal, AsciiOnly.to_decimal.
  rewrite andb_true_iff, !N.leb_le. lia.
Defined.

Lemma process_input_low_confidence_witness :
  ∃ out st',
    process_input agent Demo.SID «"mumble"» 0.5 Demo.confirming = Ok out st'
    ∧ status out = Some «"clarify"»
    ∧ waiting_for <$> sessions st' !! Demo.SID = Some None
    ∧ calls st' = [].
Proof.
  eexists _, _. split.
  - refine (process_input_low_confidence Demo.SID «"mumble"» 0.5
              Demo.confirming _ _ _); reflexivity.
  - split_and!; reflexivity.
Defined.

Lemma process_input_asks_missing_witness :
  (∃ out st',
     process_input agent Demo.SID «"hello"» 1
       (Demo.store (Demo.session ∅ None None)) = Ok out st'
     ∧ waiting_for <$> sessions st' !! Demo.SID = Some (Some AGE))
  ∧ (∃ out st',
       process_input agent Demo.SID «"hello"» 1
         (Demo.store (Demo.session {[ AGE := 30%Z ]} None None)) = Ok out st'
       ∧ waiting_for <$> sessions st' !! Demo.SID = Some (Some INCOME)).
Proof.
  split; eexists _, _.
  - split.
    + refine (proj1 (process_input_asks_missing Demo.SID «"hello"» 1
                (Demo.store (Demo.session ∅ None None)) _ _ _ _) _);
        reflexivity.
    + reflexivity.
  - split.
    + refine (proj2 (process_input_asks_missing Demo.SID «"hello"» 1
                (Demo.store (Demo.session {[ AGE := 30%Z ]} None None))
                _ _ _ _) _ _); [reflexivity|reflexivity|reflexivity| |reflexivity].
      exists 30%Z. reflexivity.
    + reflexivity.
Defined.

Lemma process_input_fills_age_then_asks_income_witness :
  ∃ out st',
    process_input agent Demo.SID «"I am 30 years old"» 1
      (Demo.store (Demo.session ∅ (Some AGE) None)) = Ok out st'
    ∧ status out = Some «"ask"»
    ∧ profile <$> sessions st' !! Demo.SID = Some {[ AGE := 30%Z ]}
    ∧ waiting_for <$> sessions st' !! Demo.SID = Some (Some INCOME).
Proof.
  eexists _, _. split.
  - refine (process_input_fills_age_then_asks_income Demo.SID
              «"I am 30 years old"» «"30"» 1
              (Demo.store (Demo.session ∅ (Some AGE) None)) _ _ _ _ _ _);
      [reflexivity|reflexivity|reflexivity| |reflexivity].
    apply search_digits_is_first_run. reflexivity.
  - split_and!; reflexivity.
Defined.

Lemma process_input_fills_income_then_checks_witness :
  ∃ out text,
    process_input agent Demo.SID «"about 1,50,000 rupees"» 1
      (Demo.store (Demo.session {[ AGE := 30%Z ]} (Some INCOME) None))
    = Ok out
        (State {[ Demo.SID :=
                    {| profile := {[ AGE := 30%Z; INCOME := 150000%Z ]};
                       waiting_for := Some CONFIRMATION;
                       last_eligibility := Some [Demo.kisan];
                       history := [(USER, «"about 1,50,000 rupees"»);
                                   (ASSISTANT, text)] |} ]} 0%nat
               [CallCheckEligibility {[ AGE := 30%Z; INCOME := 150000%Z ]}])
    ∧ status out = Some «"eligible_check"»
    ∧ reply out = Some text
    ∧ eligible out = Some [Demo.kisan].
Proof.
  destruct (process_input_fills_income_then_checks Demo.SID
              «"about 1,50,000 rupees"» «"150000"» 1
              (Demo.store (Demo.session {[ AGE := 30%Z ]} (Some INCOME) None))
              (Demo.session {[ AGE := 30%Z ]} (Some INCOME) None)
              [Demo.kisan] 0%nat)
    as (out & text & Hrun & Hout);
    [reflexivity|reflexivity|reflexivity| | |reflexivity|].
  - apply search_digits_is_first_run. reflexivity.
  - exists 30%Z. reflexivity.
  - exists out, text. split; [|exact Hout].
    rewrite Hrun. reflexivity.
Defined.

Lemma agent_always_replies_witness :
  ∃ r st' text,
    process_input_run agent Demo.SID «"details about PM Kisan"» 1
      Demo.confirming = Ok r st'
    ∧ (iterations r ≤ 2)%nat
    ∧ length (executed r) = iterations r
    ∧ reply (response r) = Some text ∧ text ≠ []
    ∧ history <$> sessions st' !! Demo.SID
      = Some (history
                (Demo.session Demo.full_profile (Some CONFIRMATION)
                   (Some [Demo.kisan]))
              ++ [(USER, «"details about PM Kisan"»); (ASSISTANT, text)]).
Proof.
  apply (agent_always_replies Demo.SID «"details about PM Kisan"» 1
           Demo.confirming).
  - intros s w ->%list_elem_of_singleton. eexists. reflexivity.
  - intros query w s w' []%elem_of_nil.
  - reflexivity.
Defined.

Lemma process_input_nothing_planned_witness :
  process_input
    {| planner := λ _ _ _, []; executor := execute; evaluator := evaluate |}
    Demo.SID «"hello"» 1 (Demo.store (Demo.session ∅ None None))
  = Ok {| status := Some NO_ACTION; reply := Some []; eligible := None;
          application_id := None; field := None; error := None |}
       (State (<[Demo.SID := heard (Demo.session ∅ None None) «"hello"»]>
                 (sessions (Demo.store (Demo.session ∅ None None))))
              0%nat []).
Proof.
  apply (process_input_nothing_planned (λ _ _ _, []) execute Demo.SID
           «"hello"» 1 (Demo.store (Demo.session ∅ None None))
           (Demo.session ∅ None None)); reflexivity.
Defined.

(** The recognition side and the client, on their settings. *)
Lemma compute_confidence_clamp_witness :
  (0 <? 0.625)%float = true ∧ (0.625 <? 1)%float = true
  ∧ Asr._compute_confidence Studio.naive_mean (Some Studio.recognition)
    = 0.625%float.
Proof.
  split; [reflexivity|]. split; [reflexivity|].
  refine (proj1 (compute_confidence_clamp Studio.naive_mean Studio.recognition
                   (default [] (Asr.rec_segments Studio.recognition)) _ _) _ _);
    [reflexivity|done|reflexivity|reflexivity].
Defined.

Lemma transcribe_cloud_is_not_implemented_witness :
  Server.transcribe «"azure"» THRESHOLD Studio.naive_mean Studio.recognize
    Studio.tmp_path «"clip.mp3"»
  = Server.HTTPException 501.
Proof.
  apply (transcribe_cloud_is_not_implemented «"azure"» THRESHOLD
           Studio.naive_mean Studio.recognize Studio.tmp_path «"clip.mp3"»).
  done.
Defined.

Lemma transcribe_local_witness :
  ∃ t,
    Server.transcribe «"local"» THRESHOLD Studio.naive_mean Studio.recognize
      Studio.tmp_path «"clip.mp3"»
    = Server.Answer t
    ∧ Server.text t = «"I am 30 years old"»
    ∧ Server.confidence t = 0.625%float
    ∧ Server.low_confidence t = false
    ∧ Server.clarify_prompt t = None.
Proof.
  destruct (transcribe_local «"local"» THRESHOLD Studio.naive_mean
              Studio.recognize Studio.tmp_path «"clip.mp3"» eq_refl)
    as (t & Ht & Htext & Hconf & _ & _ & Hlow & Hprompt & _).
  exists t. rewrite Hprompt, Hlow, Hconf, Htext.
  split; [exact Ht|]. split_and!; reflexivity.
Defined.

Lemma agent_endpoint_missing_transcript_witness :
  Endpoint.agent_endpoint Studio.create_session Studio.reply_path
    {| Endpoint.session_id := None; Endpoint.transcript := Some [];
       Endpoint.confidence := None |}
    (Studio.server (Demo.store (Demo.session ∅ None None)))
  = (Server.HTTPException 400,
     Endpoint.Server
       (State {[ Demo.SID := Demo.session ∅ None None;
                 «"new"» := Demo.session ∅ None None ]} 0%nat [])
       []).
Proof.
  rewrite (agent_endpoint_missing_transcript Studio.create_session
             Studio.reply_path _
             (Studio.server (Demo.store (Demo.session ∅ None None))));
    reflexivity.
Defined.

Lemma agent_endpoint_unknown_session_witness :
  ∃ r,
    Endpoint.agent_endpoint Studio.create_session Studio.reply_path
      {| Endpoint.session_id := Some «"s2"»;
         Endpoint.transcript := Some «"hello"»;
         Endpoint.confidence := None |}
      (Studio.server (Demo.store (Demo.session ∅ None None)))
    = (Server.Answer r,
       Studio.server (Demo.store (Demo.session ∅ None None)))
    ∧ Endpoint.response_status r = Some «"error"»
    ∧ Endpoint.response_audio r = None.
Proof.
  eexists. split.
  - apply (agent_endpoint_unknown_session Studio.create_session
             Studio.reply_path _
             (Studio.server (Demo.store (Demo.session ∅ None None)))
             «"s2"» «"hello"»); [reflexivity|done|reflexivity|done|reflexivity].
  - split; reflexivity.
Defined.

Lemma agent_endpoint_replies_witness :
  ∃ r sv' reply,
    Endpoint.agent_endpoint Studio.create_session Studio.reply_path
      {| Endpoint.session_id := Some Demo.SID;
         Endpoint.transcript := Some «"hello"»;
         Endpoint.confidence := None |}
      (Studio.server (Demo.store (Demo.session ∅ None None)))
    = (Server.Answer r, sv')
    ∧ Endpoint.response_session_id r = Demo.SID
    ∧ Endpoint.response_reply r = Some reply ∧ reply ≠ []
    ∧ Endpoint.response_audio r = Some «"tmp/reply_s1.mp3"»
    ∧ Endpoint.spoken sv' = [(reply, «"tmp/reply_s1.mp3"», «"te"»)].
Proof.
  destruct (agent_endpoint_replies Studio.create_session Studio.reply_path
              {| Endpoint.session_id := Some Demo.SID;
                 Endpoint.transcript := Some «"hello"»;
                 Endpoint.confidence := None |}
              (Studio.server (Demo.store (Demo.session ∅ None None)))
              Demo.SID «"hello"» (Demo.session ∅ None None))
    as (r & sv' & reply & Hrun & Hsid & Hreply & Hne & Haudio & Hspoken & _).
  - reflexivity.
  - done.
  - reflexivity.
  - done.
  - reflexivity.
  - intros s w []%elem_of_nil.
  - intros query w s w' []%elem_of_nil.
  - exists r, sv', reply. split_and!; done.
Defined.

Lemma run_flow_gives_up_witness :
  ∃ w',
    RetryClient.run_flow FakeServer.deaf FakeServer.client «"dummy.mp3"»
      true FakeServer.start
    = RetryClient.Done None
        (RetryClient.IO w'
           [RetryClient.Transcribe «"dummy.mp3"»;
            RetryClient.Transcribe «"dummy.mp3"»;
            RetryClient.Transcribe «"dummy.mp3"»]).
Proof.
  apply (run_flow_gives_up FakeServer.deaf FakeServer.client «"dummy.mp3"»
           FakeServer.start).
  - reflexivity.
  - intros w. eexists _, _. split; reflexivity.
Defined.

Lemma run_flow_confident_witness :
  RetryClient.run_flow FakeServer.rerecording FakeServer.client
    «"new_audio.wav"» false FakeServer.start
  = RetryClient.Done (Some FakeServer.post_agent)
      (RetryClient.IO (FakeServer.Fake 1 false)
         [RetryClient.Transcribe «"new_audio.wav"»;
          RetryClient.CallAgent
            «"నేను ప్రభుత్వ పథకాల కోసం దరఖాస్తు చేయాలనుకుంటున్నాను"»
            0x1.e666666666666p-1 None]).
Proof.
  apply (run_flow_confident FakeServer.rerecording FakeServer.client
           «"new_audio.wav"» false FakeServer.start FakeServer.HIGH
           (FakeServer.Fake 1 false));
    [done|reflexivity|reflexivity|reflexivity].
Defined.

(** The two tests of src/test_retry_client.py pass, and how. *)
Example test_retry_client_simulated :
  ∃ s,
    RetryClient.run_flow FakeServer.simulated FakeServer.client
      «"dummy.mp3"» true FakeServer.start
    = RetryClient.Done (Some FakeServer.post_agent) s
    ∧ FakeServer.status FakeServer.post_agent = «"asked_age"»
    ∧ map is_transcribe (RetryClient.events s) = [true; true; false].
Proof. eexists. split; [vm_compute; reflexivity|]. split; reflexivity. Qed.

Example test_auto_rerecord_simulated :
  ∃ s,
    RetryClient.run_flow FakeServer.rerecording FakeServer.recording_client
      «"orig.mp3"» false FakeServer.start
    = RetryClient.Done (Some FakeServer.post_agent) s
    ∧ FakeServer.new_file_created (RetryClient.outside s) = true
    ∧ is_transcribe <$> RetryClient.events s = [true; false; true; false]
    ∧ list.last (RetryClient.events s)
      = Some (RetryClient.CallAgent
                «"నేను ప్రభుత్వ పథకాల కోసం దరఖాస్తు చేయాలనుకుంటున్నాను"»
                0x1.e666666666666p-1 None).
Proof. eexists. split; [vm_compute; reflexivity|]. split_and!; reflexivity. Qed.
